(** * Story generation engine: continuity store, scene loop and pipeline

    A shallow embedding of [core/memory_manager.py], [core/generator.py],
    [core/refiner.py], [core/planner.py] and [core/pipeline.py], and the
    properties of the continuity and context engine proved over it.

    Conventions of the embedding.
    - A Python [dict] whose iteration order is observable (the character
      and plot tables are rendered in insertion order) is an association
      list with unique keys, see [Py.dict].  The pipeline's episode map is
      only read by key and is a [gmap].
    - An episode number stored in the tables is [option Z]: [None] is
      Python's [None] (the default of [add_plot_point]'s [episode_added]).
      Comparing it with an integer raises [TypeError], see [Py.lt].
    - The external services (text completion, similarity search, text
      splitting) are parameters: functions from the request that the code
      builds to the reply, with [None] for a raised exception.
    - The contents of [db_path] is a record of three optional JSON
      documents.  [json.dump] and [json.load] are taken at the level of
      the document a file denotes. *)

From Stdlib Require Import ZArith Lia Ascii String.
From stdpp Require Import base option list strings pretty gmap.

Local Set Warnings "-register-all".
Local Open Scope string_scope.
Local Open Scope list_scope.
Local Open Scope Z_scope.

(** ** Python runtime notions used by the code *)

Module Py.

(** The outcome of a computation: a value, a raised [TypeError] (the only
    exception that escapes the modelled code), or a loop that was still
    running when the budget of the model ran out. *)
Inductive result (A : Type) : Type :=
| Ok (a : A)
| TypeError
| OutOfFuel.
Arguments Ok {A} a.
Arguments TypeError {A}.
Arguments OutOfFuel {A}.

Definition bind {A B} (r : result A) (k : A → result B) : result B :=
  match r with
  | Ok a => k a
  | TypeError => TypeError
  | OutOfFuel => OutOfFuel
  end.

Global Instance result_bind : MBind result := λ A B k r, bind r k.
Global Instance result_ret : MRet result := @Ok.

(** [x < n] for a stored value [x] and an integer [n]. *)
Definition lt (x : option Z) (n : Z) : result bool :=
  match x with
  | Some e => Ok (bool_decide (e < n)%Z)
  | None => TypeError
  end.

(** [str(z)] and the rendering of a possibly-[None] value in an f-string. *)
Definition str (z : Z) : string := pretty z.

Definition fmt (x : option Z) : string :=
  match x with
  | Some z => str z
  | None => "None"
  end.

(** [sep.join(parts)] *)
Fixpoint join (sep : string) (parts : list string) : string :=
  match parts with
  | [] => ""
  | [p] => p
  | p :: rest => p +:+ sep +:+ join sep rest
  end.

(** [l[-k:]] for a positive [k]. *)
Definition last_n {A} (k : nat) (l : list A) : list A :=
  drop (length l - k)%nat l.

(** [s.strip()], [s.endswith(t)], [t in s] and [s[:n]] on strings.  The
    whitespace of [strip] is the ASCII part of Python's. *)
Definition is_space (a : ascii) : bool :=
  let n := nat_of_ascii a in
  ((9 <=? n) && (n <=? 13) || (28 <=? n) && (n <=? 32))%nat.

Fixpoint lstrip (s : string) : string :=
  match s with
  | String a s' => if is_space a then lstrip s' else s
  | EmptyString => EmptyString
  end.

Fixpoint rstrip (s : string) : string :=
  match s with
  | String a s' =>
      match rstrip s' with
      | EmptyString => if is_space a then EmptyString else String a EmptyString
      | r => String a r
      end
  | EmptyString => EmptyString
  end.

Definition strip (s : string) : string := rstrip (lstrip s).

Fixpoint contains (t s : string) : bool :=
  String.prefix t s ||
  match s with
  | String _ s' => contains t s'
  | EmptyString => false
  end.

Fixpoint endswith (s t : string) : bool :=
  String.eqb s t ||
  match s with
  | String _ s' => endswith s' t
  | EmptyString => false
  end.

Definition slice_to (n : nat) (s : string) : string := String.substring 0 n s.

(** Insertion-ordered dictionaries with string keys. *)
Definition dict (V : Type) : Type := list (string * V).

Fixpoint dict_get {V} (k : string) (d : dict V) : option V :=
  match d with
  | [] => None
  | (k', v) :: d' => if String.eqb k k' then Some v else dict_get k d'
  end.

Definition dict_mem {V} (k : string) (d : dict V) : bool :=
  match dict_get k d with Some _ => true | None => false end.

(** [d[k] = v]: an existing key keeps its position, a new key goes last. *)
Fixpoint dict_set {V} (k : string) (v : V) (d : dict V) : dict V :=
  match d with
  | [] => [(k, v)]
  | (k', v') :: d' =>
      if String.eqb k k' then (k, v) :: d' else (k', v') :: dict_set k v d'
  end.

Definition keys {V} (d : dict V) : list string := d.*1.

(** Traversal of a list by a body that may raise. *)
Fixpoint traverse {A B} (f : A → result B) (l : list A) : result (list B) :=
  match l with
  | [] => Ok []
  | a :: l' => b ← f a; bs ← traverse f l'; Ok (b :: bs)
  end.

(** [[x for x in l if p(x)]] where the test may raise. *)
Fixpoint filterM {A} (p : A → result bool) (l : list A) : result (list A) :=
  match l with
  | [] => Ok []
  | a :: l' =>
      keep ← p a; r ← filterM p l'; Ok (if keep : bool then a :: r else r)
  end.

End Py.

Import Py.

(** ** Data model of the continuity store *)

(** An element of a character's [state_history]. *)
Record StateEntry := {
  se_episode : option Z;
  se_change : string
}.

Record Character := {
  c_name : string;
  first_appearance : option Z;
  state_history : list StateEntry
}.

(** An element of a plot point's [status_history]. *)
Record StatusEntry := {
  st_episode : option Z;
  st_status : string
}.

Record PlotPoint := {
  id : Z;
  summary : string;
  status : string;
  episode_added : option Z;
  status_history : list StatusEntry
}.

(** A document of the vector store with the metadata keys the code reads. *)
Record Document := {
  page_content : string;
  md_episode : option Z;
  md_chunk_index : option nat;
  md_type : string
}.

(** JSON documents. *)
Inductive json : Type :=
| JNull
| JInt (z : Z)
| JStr (s : string)
| JArr (items : list json)
| JObj (members : list (string * json)).

(** The three files under [db_path]; [None] is a file that does not exist. *)
Record Disk := {
  characters_json : option json;
  plots_json : option json;
  counter_json : option json
}.

Definition empty_disk : Disk :=
  {| characters_json := None; plots_json := None; counter_json := None |}.

Record MemoryManager := {
  characters : dict Character;
  plot_points : dict PlotPoint;
  plot_counter : Z;
  vector_store : option (list Document);
  db : Disk
}.

(** ** Persistence: [json.dump] of the tables *)

Definition dump_episode (e : option Z) : json :=
  match e with
  | Some z => JInt z
  | None => JNull
  end.

Definition dump_state_entry (e : StateEntry) : json :=
  JObj [("episode", dump_episode (se_episode e)); ("change", JStr (se_change e))].

Definition dump_character (c : Character) : json :=
  JObj [("name", JStr (c_name c));
        ("first_appearance", dump_episode (first_appearance c));
        ("state_history", JArr (dump_state_entry <$> state_history c))].

Definition dump_status_entry (e : StatusEntry) : json :=
  JObj [("episode", dump_episode (st_episode e)); ("status", JStr (st_status e))].

Definition dump_plot_point (p : PlotPoint) : json :=
  JObj [("id", JInt (id p));
        ("summary", JStr (summary p));
        ("status", JStr (status p));
        ("episode_added", dump_episode (episode_added p));
        ("status_history", JArr (dump_status_entry <$> status_history p))].

Definition dump_dict {V} (f : V → json) (d : dict V) : json :=
  JObj ((λ kv, (kv.1, f kv.2)) <$> d).

(** [_save_persistent_data]: the three files are rewritten whole.  This is
    the path on which no write raises; the handler of the other path only
    logs, and leaves the in-memory tables as they are. *)
Definition _save_persistent_data (m : MemoryManager) : MemoryManager :=
  {| characters := characters m;
     plot_points := plot_points m;
     plot_counter := plot_counter m;
     vector_store := vector_store m;
     db := {| characters_json := Some (dump_dict dump_character (characters m));
              plots_json := Some (dump_dict dump_plot_point (plot_points m));
              counter_json := Some (JObj [("plot_counter", JInt (plot_counter m))]) |} |}.

(** ** Mutators of the store *)

Definition update_character_state
    (character_name state_change : string) (episode_number : option Z)
    (m : MemoryManager) : MemoryManager :=
  let chars :=
    if dict_mem character_name (characters m) then characters m
    else dict_set character_name
           {| c_name := character_name;
              first_appearance := episode_number;
              state_history := [] |} (characters m) in
  let chars' :=
    match dict_get character_name chars with
    | Some c =>
        dict_set character_name
          {| c_name := c_name c;
             first_appearance := first_appearance c;
             state_history := state_history c ++
               [{| se_episode := episode_number; se_change := state_change |}] |}
          chars
    | None => chars
    end in
  _save_persistent_data
    {| characters := chars';
       plot_points := plot_points m;
       plot_counter := plot_counter m;
       vector_store := vector_store m;
       db := db m |}.

Definition add_plot_point
    (summary_ status_ : string) (episode_added_ : option Z)
    (m : MemoryManager) : Z * MemoryManager :=
  let plot_id := plot_counter m + 1 in
  let p := {| id := plot_id;
              summary := summary_;
              status := status_;
              episode_added := episode_added_;
              status_history :=
                [{| st_episode := episode_added_; st_status := status_ |}] |} in
  (plot_id,
   _save_persistent_data
     {| characters := characters m;
        plot_points := dict_set (str plot_id) p (plot_points m);
        plot_counter := plot_id;
        vector_store := vector_store m;
        db := db m |}).

Definition update_plot_status
    (plot_id : Z) (new_status : string) (episode_number : option Z)
    (m : MemoryManager) : bool * MemoryManager :=
  let plot_id_str := str plot_id in
  match dict_get plot_id_str (plot_points m) with
  | None => (false, m)
  | Some p =>
      let p' := {| id := id p;
                   summary := summary p;
                   status := new_status;
                   episode_added := episode_added p;
                   status_history := status_history p ++
                     [{| st_episode := episode_number; st_status := new_status |}] |} in
      (true,
       _save_persistent_data
         {| characters := characters m;
            plot_points := dict_set plot_id_str p' (plot_points m);
            plot_counter := plot_counter m;
            vector_store := vector_store m;
            db := db m |})
  end.

(** ** Persistence: [json.load] of the tables

    [json.load] builds a dictionary from the members of an object in
    order, so a repeated key keeps its first position and its last value.
    The loaders below read a document back as the typed tables; a document
    that does not have the shape of a table has no typed reading. *)

Definition json_object (j : json) : option (dict json) :=
  match j with
  | JObj members => Some (foldl (λ d kv, dict_set kv.1 kv.2 d) [] members)
  | _ => None
  end.

Definition json_field (k : string) (j : json) : option json :=
  o ← json_object j; dict_get k o.

Definition load_episode (j : json) : option (option Z) :=
  match j with
  | JInt z => Some (Some z)
  | JNull => Some None
  | _ => None
  end.

Definition load_int (j : json) : option Z :=
  match j with JInt z => Some z | _ => None end.

Definition load_str (j : json) : option string :=
  match j with JStr s => Some s | _ => None end.

Definition load_list {V} (f : json → option V) (j : json) : option (list V) :=
  match j with JArr items => mapM f items | _ => None end.

Definition load_state_entry (j : json) : option StateEntry :=
  e ← json_field "episode" j ≫= load_episode;
  c ← json_field "change" j ≫= load_str;
  Some {| se_episode := e; se_change := c |}.

Definition load_character (j : json) : option Character :=
  n ← json_field "name" j ≫= load_str;
  f ← json_field "first_appearance" j ≫= load_episode;
  h ← json_field "state_history" j ≫= load_list load_state_entry;
  Some {| c_name := n; first_appearance := f; state_history := h |}.

Definition load_status_entry (j : json) : option StatusEntry :=
  e ← json_field "episode" j ≫= load_episode;
  s ← json_field "status" j ≫= load_str;
  Some {| st_episode := e; st_status := s |}.

Definition load_plot_point (j : json) : option PlotPoint :=
  i ← json_field "id" j ≫= load_int;
  sm ← json_field "summary" j ≫= load_str;
  st ← json_field "status" j ≫= load_str;
  ea ← json_field "episode_added" j ≫= load_episode;
  h ← json_field "status_history" j ≫= load_list load_status_entry;
  Some {| id := i; summary := sm; status := st; episode_added := ea;
          status_history := h |}.

Definition load_dict {V} (f : json → option V) (j : json) : option (dict V) :=
  o ← json_object j;
  mapM (λ kv, v ← f kv.2; Some (kv.1, v)) o.

(** [counter_data.get("plot_counter", 0)] *)
Definition load_counter (j : json) : option Z :=
  o ← json_object j;
  match dict_get "plot_counter" o with
  | Some v => load_int v
  | None => Some 0
  end.

(** [_load_persistent_data]: each file that exists replaces its table. *)
Definition _load_persistent_data (m : MemoryManager) : option MemoryManager :=
  chars ← match characters_json (db m) with
          | Some j => load_dict load_character j
          | None => Some (characters m)
          end;
  plots ← match plots_json (db m) with
          | Some j => load_dict load_plot_point j
          | None => Some (plot_points m)
          end;
  counter ← match counter_json (db m) with
            | Some j => load_counter j
            | None => Some (plot_counter m)
            end;
  Some {| characters := chars; plot_points := plots; plot_counter := counter;
          vector_store := vector_store m; db := db m |}.

(** [MemoryManager(api_key, db_path)]: empty tables, then the load.  [vs] is
    the vector store the constructor obtained, [None] when it got none. *)
Definition empty_tables (vs : option (list Document)) (d : Disk) : MemoryManager :=
  {| characters := []; plot_points := []; plot_counter := 0;
     vector_store := vs; db := d |}.

Definition MemoryManager_init (vs : option (list Document)) (d : Disk)
    : option MemoryManager :=
  _load_persistent_data (empty_tables vs d).

(** ** Readers of the store *)

Definition render_state_entry (change : StateEntry) : string :=
  "Episode " +:+ fmt (se_episode change) +:+ ": " +:+ se_change change.

Definition get_character_summaries (m : MemoryManager) : string :=
  let summaries :=
    (λ kv : string * Character,
       let recent_changes := last_n 3 (state_history kv.2) in
       let changes_text := join "; " (render_state_entry <$> recent_changes) in
       let summary_ := kv.1 +:+ ": First appeared in Episode "
                       +:+ fmt (first_appearance kv.2) +:+ ". " in
       if String.eqb changes_text "" then summary_
       else summary_ +:+ "Recent state: " +:+ changes_text)
    <$> characters m in
  match summaries with
  | [] => "No character information available."
  | _ => join "
" summaries
  end.

Definition terminal_statuses : list string := ["resolved"; "completed"; "abandoned"].

Definition get_active_plot_points (m : MemoryManager) : dict PlotPoint :=
  filter (λ kv, status kv.2 ∉ terminal_statuses) (plot_points m).

Definition render_status_entry (plot_data : PlotPoint) (latest_status : StatusEntry)
    : string :=
  "Plot: " +:+ summary plot_data +:+ " - Status as of Episode "
  +:+ fmt (st_episode latest_status) +:+ ": " +:+ st_status latest_status.

(** [[change for change in state_history if change["episode"] < n]] *)
Definition relevant_history (n : Z) (h : list StateEntry) : result (list StateEntry) :=
  filterM (λ change, lt (se_episode change) n) h.

(** [[status for status in status_history if status["episode"] < n]] *)
Definition relevant_status (n : Z) (h : list StatusEntry) : result (list StatusEntry) :=
  filterM (λ st, lt (st_episode st) n) h.

(** The entries of one character that the summary of episode [n] shows:
    [relevant_history[-2:]], and none for a character that is skipped. *)
Definition last_states (n : Z) (char_data : Character) : result (list StateEntry) :=
  before ← lt (first_appearance char_data) n;
  if before : bool then
    h ← relevant_history n (state_history char_data);
    Ok (last_n 2 h)
  else Ok [].

(** The entry of one plot point that the summary of episode [n] shows:
    [relevant_status[-1]], and none for a plot point that is skipped. *)
Definition latest_status (n : Z) (plot_data : PlotPoint) : result (option StatusEntry) :=
  before ← lt (episode_added plot_data) n;
  if before : bool then
    h ← relevant_status n (status_history plot_data);
    Ok (last h)
  else Ok None.

(** What the two loops of [get_context_summary] select, in table order. *)
Definition shown_states (m : MemoryManager) (n : Z)
    : result (list (string * list StateEntry)) :=
  traverse (λ kv : string * Character, s ← last_states n kv.2; Ok (kv.1, s))
           (characters m).

Definition shown_statuses (m : MemoryManager) (n : Z)
    : result (list (PlotPoint * option StatusEntry)) :=
  traverse (λ kv : string * PlotPoint, s ← latest_status n kv.2; Ok (kv.2, s))
           (plot_points m).

(** The line of a character, if it has entries to show. *)
Definition character_line (shown : string * list StateEntry) : option string :=
  match shown.2 with
  | [] => None
  | last_states =>
      let states_text := join "; " (render_state_entry <$> last_states) in
      Some (shown.1 +:+ ": " +:+ states_text)
  end.

(** The line of a plot point, if it has an entry to show. *)
Definition plot_line (shown : PlotPoint * option StatusEntry) : option string :=
  render_status_entry shown.1 <$> shown.2.

Definition combine_summaries (character_summary plot_summary : list string) : string :=
  let full_summary :=
    match character_summary with
    | [] => "No prior character information."
    | _ => "CHARACTER CONTEXT:
" +:+ join "
" character_summary
    end in
  full_summary +:+
    match plot_summary with
    | [] => "

No prior plot points."
    | _ => "

PLOT CONTEXT:
" +:+ join "
" plot_summary
    end.

(** [get_context_summary]: the character loop, then the plot loop, then
    the two blocks.  The loops of the source select and render in one
    pass; rendering does not raise, so selecting first gives the same
    result, text or exception. *)
Definition get_context_summary (m : MemoryManager) (episode_number : Z)
    : result string :=
  character_summary ← shown_states m episode_number;
  plot_summary ← shown_statuses m episode_number;
  Ok (combine_summaries (omap character_line character_summary)
                        (omap plot_line plot_summary)).

(** ** External services

    Each text-completion call is a function from the values the code puts
    in its prompt to the reply; [None] is a call that raises.  A record of
    services is an argument of every operation that calls out, so two runs
    may be answered differently. *)

Record SceneRequest := {
  sr_episode_number : Z;
  sr_scene_number : Z;
  sr_episode_summary : string;
  sr_context_summary : string;
  sr_character_info : string;
  sr_relevant_chunks : string;
  sr_previous_scene_summary : string
}.

Record CritiqueRequest := {
  cr_episode_number : Z;
  cr_episode_summary : string;
  cr_context_summary : string;
  cr_script_text : string
}.

Record ExtractionRequest := {
  er_episode_number : Z;
  er_script_for_analysis : string
}.

(** The value of [update.get("plot_summary_or_id")]. *)
Inductive PlotRef : Type :=
| RefId (plot_id : Z)
| RefSummary (text : string)
| RefOther.

(** The parsed reply of the extraction call. *)
Record ExtractedInfo := {
  character_updates : list (string * string);
  plot_updates : list (PlotRef * string);
  new_plot_points : list string;
  key_event_summary : option string
}.

Record PlanCharacter := {
  pc_name : option string;
  pc_description : option string;
  pc_motivation : option string
}.

Record PlanEpisode := {
  pe_episode : option Z;
  pe_summary : option string;
  pe_key_points : list string
}.

Record StoryPlan := {
  sp_title : option string;
  sp_premise : option string;
  sp_setting : option string;
  sp_characters : list PlanCharacter;
  master_outline : list PlanEpisode
}.

(** The services of one run.  The completions return the parsed reply
    ([None]: the call raised, or the reply did not parse).
    [similarity_search docs query k] is the search of the vector store
    holding [docs]; [embeddings_ok] tells whether the embedding service
    answers, which creating the store and adding texts need; [persist_ok]
    tells whether the store has a working [persist()]. *)
Record Services := {
  plan_completion : string → option StoryPlan;
  scene_completion : SceneRequest → option string;
  critique_completion : CritiqueRequest → option string;
  extraction_completion : ExtractionRequest → option ExtractedInfo;
  similarity_search : list Document → string → nat → option (list Document);
  split_text : string → list string;
  embeddings_ok : bool;
  persist_ok : bool
}.

(** ** Vector store operations of the memory manager *)

Definition with_vector_store (vs : option (list Document)) (m : MemoryManager)
    : MemoryManager :=
  {| characters := characters m; plot_points := plot_points m;
     plot_counter := plot_counter m; vector_store := vs; db := db m |}.

(** [add_document_chunks(text, metadata)] for a single text with the
    metadata [{"type": type, "episode": episode}]. *)
Definition add_document_chunks (svc : Services) (text type_ : string) (episode : Z)
    (m : MemoryManager) : bool * MemoryManager :=
  match vector_store m with
  | None => (false, m)
  | Some docs =>
      if embeddings_ok svc then
        (persist_ok svc,
         with_vector_store
           (Some (docs ++ [{| page_content := text; md_episode := Some episode;
                              md_chunk_index := None; md_type := type_ |}])) m)
      else (false, m)
  end.

(** The text of the [i]-th search result, with its source. *)
Definition render_chunk (i : nat) (doc : Document) : string :=
  let source_info := "[From Episode " +:+
    match md_episode doc with Some e => str e | None => "unknown" end in
  let source_info :=
    match md_chunk_index doc with
    | Some c => source_info +:+ ", Chunk " +:+ pretty c
    | None => source_info
    end in
  let source_info := source_info +:+ "]" in
  "Relevant Context " +:+ pretty (i + 1)%nat +:+ " " +:+ source_info +:+ ":
" +:+ page_content doc +:+ "
".

Definition get_relevant_chunks (svc : Services) (query : string) (limit : nat)
    (m : MemoryManager) : string :=
  match vector_store m with
  | None => "No vector store available for retrieving relevant content."
  | Some docs =>
      match similarity_search svc docs query limit with
      | Some results => join "
" (imap render_chunk results)
      | None => "Error retrieving relevant context."
      end
  end.

(** [add_chunks_to_vector_store]: a missing store is created empty, the
    chunks that are not blank are added with their episode and index.
    Any exception inside gives [False]. *)
Definition add_chunks_to_vector_store (svc : Services) (chunks : list string)
    (episode_number : Z) (m : MemoryManager) : bool * MemoryManager :=
  if embeddings_ok svc then
    let m := match vector_store m with
             | None => with_vector_store (Some []) m
             | Some _ => m
             end in
    let valid_chunks := filter (λ c, strip c ≠ "") chunks in
    match valid_chunks with
    | [] => (false, m)
    | _ =>
        let new_docs :=
          imap (λ i c, {| page_content := c; md_episode := Some episode_number;
                          md_chunk_index := Some i; md_type := "script_chunk" |})
               valid_chunks in
        (true, with_vector_store (Some (default [] (vector_store m) ++ new_docs)) m)
    end
  else (false, m).

(** ** The scene generation loop, [core/generator.py] *)

Definition MAX_SCENES_PER_EPISODE : Z := 10.

Definition EPISODE_END : string := "# EPISODE END".
Definition SCENE_ERROR : string := "Error generating Scene".
Definition SCENE_LIMIT : string := "# SCENE LIMIT REACHED - EPISODE INCOMPLETE".

Definition error_marker (scene_number : Z) : string :=
  "ERROR GENERATING SCENE " +:+ str scene_number +:+ ": Generation stopped.".

(** The arguments of [generate_episode_script], fixed during the loop. *)
Record EpisodeContext := {
  episode_number : Z;
  episode_summary : string;
  context_summary : string;
  character_info : string;
  relevant_chunks : string
}.

Definition scene_request (ctx : EpisodeContext) (scene_number : Z)
    (previous_scene_summary : string) : SceneRequest :=
  {| sr_episode_number := episode_number ctx;
     sr_scene_number := scene_number;
     sr_episode_summary := episode_summary ctx;
     sr_context_summary := context_summary ctx;
     sr_character_info := character_info ctx;
     sr_relevant_chunks := relevant_chunks ctx;
     sr_previous_scene_summary :=
       if bool_decide (scene_number > 1)%Z then previous_scene_summary
       else "This is the first scene." |}.

(** [_generate_scene]: one call of the service, and the triple
    [(scene_script, updated summary, episode_complete)]. *)
Definition _generate_scene (svc : Services) (ctx : EpisodeContext)
    (scene_number : Z) (previous_scene_summary : string) : string * string * bool :=
  match scene_completion svc (scene_request ctx scene_number previous_scene_summary) with
  | Some content =>
      let scene_script := strip content in
      (scene_script,
       previous_scene_summary +:+ "

" +:+ scene_script,
       endswith scene_script EPISODE_END)
  | None => (SCENE_ERROR +:+ " " +:+ str scene_number, "Error", true)
  end.

(** The variables of the loop, with the requests sent to the service so
    far and whether the loop was left by [break]. *)
Record LoopState := {
  full_episode_script : list string;
  scene_number : Z;
  previous_scenes_summary : string;
  episode_complete : bool;
  broke : bool;
  requests : list SceneRequest
}.

Definition loop_init : LoopState :=
  {| full_episode_script := []; scene_number := 1; previous_scenes_summary := "";
     episode_complete := false; broke := false; requests := [] |}.

(** The test of the [while], and [broke] for a loop left by [break]. *)
Definition loop_running (st : LoopState) : bool :=
  negb (broke st) &&
  bool_decide (scene_number st ≤ MAX_SCENES_PER_EPISODE)%Z && negb (episode_complete st).

(** One run of the body of the [while]. *)
Definition loop_body (svc : Services) (ctx : EpisodeContext) (st : LoopState)
    : LoopState :=
  let '(scene_script, updated_summary, complete) :=
    _generate_scene svc ctx (scene_number st) (previous_scenes_summary st) in
  let sent := requests st ++
    [scene_request ctx (scene_number st) (previous_scenes_summary st)] in
  if contains SCENE_ERROR scene_script then
    {| full_episode_script :=
         full_episode_script st ++ [error_marker (scene_number st)];
       scene_number := scene_number st;
       previous_scenes_summary := previous_scenes_summary st;
       episode_complete := complete;
       broke := true;
       requests := sent |}
  else
    let script := full_episode_script st ++ [scene_script] in
    let next := scene_number st + 1 in
    {| full_episode_script :=
         if bool_decide (next > MAX_SCENES_PER_EPISODE)%Z && negb complete
         then script ++ [SCENE_LIMIT] else script;
       scene_number := next;
       previous_scenes_summary := updated_summary;
       episode_complete := complete;
       broke := false;
       requests := sent |}.

Fixpoint scene_loop (fuel : nat) (svc : Services) (ctx : EpisodeContext)
    (st : LoopState) : result LoopState :=
  if loop_running st then
    match fuel with
    | O => OutOfFuel
    | S fuel' => scene_loop fuel' svc ctx (loop_body svc ctx st)
    end
  else Ok st.

Definition scene_fuel : nat := Z.to_nat MAX_SCENES_PER_EPISODE.

Definition generate_episode_script (svc : Services) (ctx : EpisodeContext)
    : result string :=
  st ← scene_loop scene_fuel svc ctx loop_init;
  Ok (join "

" (full_episode_script st)).

(** ** The critique and memory update steps, [core/refiner.py] *)

(** [critique_episode] returns a pair: the script it was given and the
    critique text.  The context is fetched outside the [try], so a
    [TypeError] of [get_context_summary] escapes. *)
Definition critique_episode (svc : Services) (script_text : string)
    (episode_number : Z) (episode_summary : string) (m : MemoryManager)
    : result (string * string) :=
  context_summary ← get_context_summary m episode_number;
  match critique_completion svc
          {| cr_episode_number := episode_number;
             cr_episode_summary := episode_summary;
             cr_context_summary := context_summary;
             cr_script_text := script_text |} with
  | Some critique => Ok (script_text, critique)
  | None => Ok (script_text, "Error generating critique.")
  end.

(** Step 3 of [update_memory_from_script]: the three loops over the
    extracted information. *)
Definition apply_extracted_info (info : ExtractedInfo) (episode_number : Z)
    (m : MemoryManager) : MemoryManager :=
  let m := foldl (λ m update,
                    update_character_state update.1 update.2 (Some episode_number) m)
                 m (character_updates info) in
  let m := foldl (λ m update,
                    match update.1 with
                    | RefId plot_id =>
                        (update_plot_status plot_id update.2 (Some episode_number) m).2
                    | _ => m
                    end)
                 m (plot_updates info) in
  foldl (λ m summary_,
           (add_plot_point summary_ "introduced" (Some episode_number) m).2)
        m (new_plot_points info).

Definition update_memory_from_script (svc : Services) (script_text : string)
    (episode_number : Z) (m : MemoryManager) : MemoryManager :=
  let script_chunks := split_text svc script_text in
  let script_for_analysis :=
    match script_chunks with
    | c :: _ => c
    | [] => slice_to 4000 script_text
    end in
  let extracted_info :=
    extraction_completion svc
      {| er_episode_number := episode_number;
         er_script_for_analysis := script_for_analysis |} in
  let m := match extracted_info with
           | Some info => apply_extracted_info info episode_number m
           | None => m
           end in
  (add_chunks_to_vector_store svc script_chunks episode_number m).2.

(** ** Storing the plan, [core/planner.py] *)

Definition fmt_str (x : option string) : string := default "None" x.

Definition overview_text (story_plan : StoryPlan) : string :=
  "
            STORY TITLE: " +:+ default "Untitled" (sp_title story_plan) +:+ "
            
            PREMISE: " +:+ default "No premise specified" (sp_premise story_plan) +:+ "
            
            SETTING: " +:+ default "No setting specified" (sp_setting story_plan) +:+ "
            ".

Definition store_episode_plan (m : MemoryManager) (episode : PlanEpisode)
    : MemoryManager :=
  let m := (add_plot_point
              ("Episode " +:+ fmt (pe_episode episode) +:+ " objective: "
               +:+ fmt_str (pe_summary episode))
              "planned" (Some 0) m).2 in
  foldl (λ m point,
           (add_plot_point
              ("Episode " +:+ fmt (pe_episode episode) +:+ " key point: " +:+ point)
              "planned" (Some 0) m).2)
        m (pe_key_points episode).

Definition store_plan (svc : Services) (story_plan : option StoryPlan)
    (m : MemoryManager) : bool * MemoryManager :=
  match story_plan with
  | None => (false, m)
  | Some plan =>
      let m := foldl (λ m character,
                        update_character_state
                          (default "Unknown" (pc_name character))
                          ("Description: " +:+ default "" (pc_description character)
                           +:+ ". Motivation: " +:+ default "" (pc_motivation character))
                          (Some 0) m)
                     m (sp_characters plan) in
      let m := foldl store_episode_plan m (master_outline plan) in
      (true, (add_document_chunks svc (overview_text plan) "story_overview" 0 m).2)
  end.

(** ** The pipeline, [core/pipeline.py] *)

(** The second component of what [generate_episode] returns and the
    ["critique"] field it stores: a message on the early returns, and on
    the main path the value of [critique_episode], which is a pair. *)
Inductive CritiqueValue : Type :=
| CritiqueText (text : string)
| CritiquePair (script_text critique : string).

Record EpisodeData := {
  script : string;
  critique : CritiqueValue
}.

Record StoryPipeline := {
  memory : MemoryManager;
  story_plan : option StoryPlan;
  generated_episodes : gmap Z EpisodeData
}.

Definition plan_story (svc : Services) (user_input : string) (p : StoryPipeline)
    : bool * StoryPipeline :=
  if String.eqb user_input "" then (false, p)
  else
    let plan := plan_completion svc user_input in
    let p := {| memory := memory p; story_plan := plan;
                generated_episodes := generated_episodes p |} in
    match plan with
    | None => (false, p)
    | Some _ =>
        let '(stored, m) := store_plan svc plan (memory p) in
        (stored, {| memory := m; story_plan := plan;
                    generated_episodes := generated_episodes p |})
    end.

(** The bundle of context that [generate_episode] assembles. *)
Definition assemble_context (svc : Services) (episode_number : Z)
    (episode_summary : string) (m : MemoryManager) : result EpisodeContext :=
  context_summary ← get_context_summary m episode_number;
  let character_info := get_character_summaries m in
  let relevant_chunks := get_relevant_chunks svc episode_summary 5 m in
  Ok {| episode_number := episode_number;
        episode_summary := episode_summary;
        context_summary := context_summary;
        character_info := character_info;
        relevant_chunks := relevant_chunks |}.

Definition generate_episode (svc : Services) (episode_number : Z) (p : StoryPipeline)
    : result (option string * CritiqueValue * StoryPipeline) :=
  match story_plan p with
  | None => Ok (None, CritiqueText "No story plan exists.", p)
  | Some plan =>
      match list_find (λ ep, pe_episode ep = Some episode_number) (master_outline plan) with
      | None =>
          Ok (None,
              CritiqueText ("Episode " +:+ str episode_number
                            +:+ " not found in story plan."), p)
      | Some (_, ep) =>
          let episode_summary := default "" (pe_summary ep) in
          ctx ← assemble_context svc episode_number episode_summary (memory p);
          script ← generate_episode_script svc ctx;
          if String.eqb script "" || contains "Error generating script" script then
            Ok (Some script,
                CritiqueText "Generation failed, no critique available.", p)
          else
            critique ← critique_episode svc script episode_number episode_summary
                         (memory p);
            let critique := CritiquePair critique.1 critique.2 in
            let m := update_memory_from_script svc script episode_number (memory p) in
            Ok (Some script, critique,
                {| memory := m;
                   story_plan := story_plan p;
                   generated_episodes :=
                     <[episode_number := {| script := script; critique := critique |}]>
                       (generated_episodes p) |})
      end
  end.

Definition get_episode_data (episode_number : Z) (p : StoryPipeline)
    : option EpisodeData :=
  generated_episodes p !! episode_number.

(** * Notions of the statements *)

(** ** Runs of the store *)

(** A call of one of the three mutators, with its arguments. *)
Inductive StoreCall : Type :=
| CallUpdateCharacter (character_name state_change : string) (episode_number : option Z)
| CallAddPlotPoint (summary_ status_ : string) (episode_added_ : option Z)
| CallUpdatePlotStatus (plot_id : Z) (new_status : string) (episode_number : option Z).

Definition run_call (m : MemoryManager) (c : StoreCall) : MemoryManager :=
  match c with
  | CallUpdateCharacter n s e => update_character_state n s e m
  | CallAddPlotPoint s st e => (add_plot_point s st e m).2
  | CallUpdatePlotStatus i st e => (update_plot_status i st e m).2
  end.

Definition run_calls (m : MemoryManager) (cs : list StoreCall) : MemoryManager :=
  foldl run_call m cs.

(** A sequence of [add_plot_point] calls: the ids returned, in call order,
    and the store they leave. *)
Fixpoint add_plot_points (calls : list (string * string * option Z))
    (m : MemoryManager) : list Z * MemoryManager :=
  match calls with
  | [] => ([], m)
  | (summary_, status_, episode_added_) :: rest =>
      let '(plot_id, m') := add_plot_point summary_ status_ episode_added_ m in
      let '(ids, m'') := add_plot_points rest m' in
      (plot_id :: ids, m'')
  end.

(** The plot point that [add_plot_point] builds for an id and a call. *)
Definition new_plot_point (plot_id : Z) (call : string * string * option Z)
    : PlotPoint :=
  {| id := plot_id;
     summary := call.1.1;
     status := call.1.2;
     episode_added := call.2;
     status_history := [{| st_episode := call.2; st_status := call.1.2 |}] |}.

(** ** Unknown and known ids in [update_plot_status] *)

(** The plot point that [update_plot_status] leaves in place of [p]. *)
Definition with_status (p : PlotPoint) (new_status : string) (episode_number : option Z)
    : PlotPoint :=
  {| id := id p;
     summary := summary p;
     status := new_status;
     episode_added := episode_added p;
     status_history := status_history p ++
       [{| st_episode := episode_number; st_status := new_status |}] |}.

Definition one_plot_store : MemoryManager :=
  (add_plot_point "Find the key" "planned" (Some 0) (empty_tables None empty_disk)).2.

(** The tables of a store have no repeated key. *)
Definition unique_keys (m : MemoryManager) : Prop :=
  NoDup (keys (characters m)) ∧ NoDup (keys (plot_points m)).

(** A store with a character and a plot point, each with some history. *)
Definition sample_store : MemoryManager :=
  run_calls (empty_tables None empty_disk)
    [CallUpdateCharacter "Ana" "Description: a pilot. Motivation: home" (Some 0);
     CallAddPlotPoint "Find the key" "planned" (Some 0);
     CallUpdateCharacter "Ana" "hurt in the crash" (Some 1);
     CallUpdatePlotStatus 1 "resolved" (Some 3);
     CallUpdatePlotStatus 1 "active" (Some 1);
     CallUpdateCharacter "Bo" "joins the crew" (Some 2);
     CallUpdateCharacter "Ana" "recovers" (Some 2)].


(** ** The causal filter of [get_context_summary] *)

(** [e < n] as a test: false also for [None], where the code raises. *)
Definition before (n : Z) (e : option Z) : bool :=
  match e with
  | Some z => bool_decide (z < n)
  | None => false
  end.

(** ** Which status entry is shown *)

(** The reading of "latest" by the episode field: the entry shown for a
    plot point has the greatest episode among its entries before [n]. *)
Definition shows_latest_by_episode (m : MemoryManager) (n : Z) : Prop :=
  ∀ k p shown, (k, p) ∈ plot_points m → before n (episode_added p) = true →
    latest_status n p = Ok (Some shown) →
    ∀ st z, st ∈ status_history p → st_episode st = Some z → z < n →
      ∃ zs, st_episode shown = Some zs ∧ z ≤ zs.

(** A history appended in non-decreasing order of episode. *)
Definition episode_ordered (h : list StatusEntry) : Prop :=
  ∀ (i j : nat) a b za zb, (i ≤ j)%nat → h !! i = Some a → h !! j = Some b →
    st_episode a = Some za → st_episode b = Some zb → za ≤ zb.

(** The plot point of [sample_store]. *)
Definition sample_plot : PlotPoint :=
  with_status
    (with_status (new_plot_point 1 ("Find the key", "planned", Some 0))
                 "resolved" (Some 3))
    "active" (Some 1).

(** ** [None] as the episode of a plot point *)

Definition plot_episodes_numeric (m : MemoryManager) : Prop :=
  ∀ k p, (k, p) ∈ plot_points m → is_Some (episode_added p).

(** Some plot point stored under an id already issued has [None] as its
    [episode_added]. *)
Definition has_undated_plot (m : MemoryManager) : Prop :=
  ∃ j p, j ≤ plot_counter m ∧ dict_get (str j) (plot_points m) = Some p
    ∧ episode_added p = None.

(** ** The scene loop *)

(** The service answers the requests for scenes [n], [n+1], ... with the
    texts [ts] (after [strip]), none of which ends the episode or carries
    the error sentinel.  [prev] is the rolling summary before scene [n]. *)
Fixpoint scenes_generated (svc : Services) (ctx : EpisodeContext) (n : Z)
    (prev : string) (ts : list string) : bool :=
  match ts with
  | [] => true
  | t :: ts' =>
      match scene_completion svc (scene_request ctx n prev) with
      | Some content =>
          String.eqb (strip content) t
          && negb (endswith t EPISODE_END)
          && negb (contains SCENE_ERROR t)
          && scenes_generated svc ctx (n + 1) (prev +:+ "

" +:+ t) ts'
      | None => false
      end
  end.

(** The rolling summary after the scenes [ts], from [prev]. *)
Definition rolling_summary (prev : string) (ts : list string) : string :=
  foldl (λ acc t, acc +:+ "

" +:+ t) prev ts.

(** The requests that the loop sends for the scenes [ts], from scene [n]. *)
Fixpoint scene_requests (ctx : EpisodeContext) (n : Z) (prev : string)
    (ts : list string) : list SceneRequest :=
  match ts with
  | [] => []
  | t :: ts' =>
      scene_request ctx n prev
        :: scene_requests ctx (n + 1) (prev +:+ "

" +:+ t) ts'
  end.

(** What holds of the loop variables at every test of the [while]. *)
Record loop_invariant (st : LoopState) : Prop := {
  inv_scene_lower : 1 ≤ scene_number st;
  inv_scene_upper : scene_number st ≤ MAX_SCENES_PER_EPISODE + 1;
  inv_requests :
    Z.of_nat (length (requests st))
    = scene_number st - 1 + (if broke st then 1 else 0);
  inv_broke : broke st = true → scene_number st ≤ MAX_SCENES_PER_EPISODE;
  inv_script :
    broke st = false →
    ∃ scenes, Z.of_nat (length scenes) = scene_number st - 1
      ∧ full_episode_script st
        = if bool_decide (scene_number st > MAX_SCENES_PER_EPISODE)
             && negb (episode_complete st)
          then scenes ++ [SCENE_LIMIT] else scenes
}.

(** The state of the loop after the scenes [ts] were accepted from [st]. *)
Definition after_scenes (ctx : EpisodeContext) (st : LoopState) (ts : list string)
    : LoopState :=
  {| full_episode_script := full_episode_script st ++ ts;
     scene_number := scene_number st + Z.of_nat (length ts);
     previous_scenes_summary := rolling_summary (previous_scenes_summary st) ts;
     episode_complete := false;
     broke := false;
     requests := requests st
       ++ scene_requests ctx (scene_number st) (previous_scenes_summary st) ts |}.

(** ** Sample services and runs *)

Definition sample_plan : StoryPlan :=
  {| sp_title := Some "The Long Way Home";
     sp_premise := Some "A pilot crosses the desert.";
     sp_setting := Some "A desert";
     sp_characters :=
       [{| pc_name := Some "Ana"; pc_description := Some "a pilot";
           pc_motivation := Some "home" |}];
     master_outline :=
       [{| pe_episode := Some 1; pe_summary := Some "The crash";
           pe_key_points := ["Ana crashes"] |};
        {| pe_episode := Some 2; pe_summary := Some "The walk";
           pe_key_points := [] |}] |}.

(** A service that writes two scenes and ends the episode with the
    second, finds every stored chunk, and extracts one character update. *)
Definition sample_services : Services :=
  {| plan_completion := λ _, Some sample_plan;
     scene_completion := λ r,
       if bool_decide (sr_scene_number r = 1) then Some "INT. COCKPIT - DAY"
       else Some "EXT. DESERT - DAY
# EPISODE END";
     critique_completion := λ _, Some "Looks good";
     extraction_completion := λ _,
       Some {| character_updates := [("Ana", "hurt in the crash")];
               plot_updates := [];
               new_plot_points := [];
               key_event_summary := None |};
     similarity_search := λ docs _ k, Some (take k docs);
     split_text := λ s, [s];
     embeddings_ok := true;
     persist_ok := false |}.

(** A service that never ends the episode. *)
Definition endless_services : Services :=
  {| plan_completion := plan_completion sample_services;
     scene_completion := λ r, Some ("INT. ROOM " +:+ str (sr_scene_number r));
     critique_completion := critique_completion sample_services;
     extraction_completion := extraction_completion sample_services;
     similarity_search := similarity_search sample_services;
     split_text := split_text sample_services;
     embeddings_ok := true;
     persist_ok := false |}.

(** A service whose third scene call raises. *)
Definition failing_services : Services :=
  {| plan_completion := plan_completion sample_services;
     scene_completion := λ r,
       if bool_decide (sr_scene_number r = 3) then None
       else Some ("INT. ROOM " +:+ str (sr_scene_number r));
     critique_completion := critique_completion sample_services;
     extraction_completion := extraction_completion sample_services;
     similarity_search := similarity_search sample_services;
     split_text := split_text sample_services;
     embeddings_ok := true;
     persist_ok := false |}.

Definition sample_context : EpisodeContext :=
  {| episode_number := 1; episode_summary := "The crash";
     context_summary := "No prior character information.

No prior plot points.";
     character_info := "No character information available.";
     relevant_chunks := "" |}.

(** ** Runs of the pipeline *)

(** [StoryPipeline()]: a memory manager over the files, no plan, no episode. *)
Definition StoryPipeline_init (vs : option (list Document)) (d : Disk)
    : option StoryPipeline :=
  m ← MemoryManager_init vs d;
  Some {| memory := m; story_plan := None; generated_episodes := ∅ |}.

(** A new pipeline on an empty storage location, after [plan_story]. *)
Definition planned_pipeline : StoryPipeline :=
  (plan_story sample_services "a pilot story"
     {| memory := empty_tables (Some []) empty_disk;
        story_plan := None;
        generated_episodes := ∅ |}).2.

Definition sample_script : string := "INT. COCKPIT - DAY

EXT. DESERT - DAY
# EPISODE END".

(** The store after episode 1 was generated once. *)
Definition memory_after_episode_1 : MemoryManager :=
  update_memory_from_script sample_services sample_script 1 (memory planned_pipeline).

(** The entries that [get_character_summaries] renders: the last three of
    every character. *)
Definition character_info_entries (m : MemoryManager) : list StateEntry :=
  characters m ≫= λ kv, last_n 3 (state_history kv.2).

(** The documents that [get_relevant_chunks] renders. *)
Definition relevant_documents (svc : Services) (query : string) (limit : nat)
    (m : MemoryManager) : list Document :=
  match vector_store m with
  | Some docs => default [] (similarity_search svc docs query limit)
  | None => []
  end.

(** The bundle for episode [n] draws on nothing tagged with an episode
    [>= n]: the reading of the causal boundary for [character_info] and
    [relevant_chunks]. *)
Definition bundle_sources_before (svc : Services) (query : string)
    (m : MemoryManager) (n : Z) : Prop :=
  (∀ e, e ∈ character_info_entries m → before n (se_episode e) = true)
  ∧ (∀ doc, doc ∈ relevant_documents svc query 5 m → before n (md_episode doc) = true).

(** * Further notions of the statements *)

(** The character that [update_character_state] leaves for [name]: a new
    one on first use, the old one with one more entry otherwise. *)
Definition with_state (old : option Character) (name change : string)
    (episode_number : option Z) : Character :=
  let entry := {| se_episode := episode_number; se_change := change |} in
  match old with
  | Some c => {| c_name := c_name c; first_appearance := first_appearance c;
                 state_history := state_history c ++ [entry] |}
  | None => {| c_name := name; first_appearance := episode_number;
               state_history := [entry] |}
  end.

(** Every key of the plot table is the text of an id already issued. *)
Definition ids_issued (m : MemoryManager) : Prop :=
  ∀ k p, (k, p) ∈ plot_points m → ∃ j, k = str j ∧ j ≤ plot_counter m.







(** The calls of the mutators that step 3 of [update_memory_from_script]
    makes for an extracted reply, in order. *)
Definition extracted_calls (info : ExtractedInfo) (episode_number : Z)
    : list StoreCall :=
  ((λ update : string * string,
      CallUpdateCharacter update.1 update.2 (Some episode_number))
     <$> character_updates info)
  ++ omap (λ update : PlotRef * string,
             match update.1 with
             | RefId plot_id =>
                 Some (CallUpdatePlotStatus plot_id update.2 (Some episode_number))
             | _ => None
             end) (plot_updates info)
  ++ ((λ summary_, CallAddPlotPoint summary_ "introduced" (Some episode_number))
        <$> new_plot_points info).

(** The calls of the mutators that [store_plan] makes for a plan. *)
Definition plan_calls (plan : StoryPlan) : list StoreCall :=
  ((λ character,
      CallUpdateCharacter
        (default "Unknown" (pc_name character))
        ("Description: " +:+ default "" (pc_description character)
         +:+ ". Motivation: " +:+ default "" (pc_motivation character))
        (Some 0)) <$> sp_characters plan)
  ++ (master_outline plan ≫= λ episode,
        CallAddPlotPoint
          ("Episode " +:+ fmt (pe_episode episode) +:+ " objective: "
           +:+ fmt_str (pe_summary episode)) "planned" (Some 0)
        :: ((λ point,
               CallAddPlotPoint
                 ("Episode " +:+ fmt (pe_episode episode) +:+ " key point: " +:+ point)
                 "planned" (Some 0)) <$> pe_key_points episode)).

(** The episode of a call is a number, at least [n]. *)
Definition call_not_before (n : Z) (c : StoreCall) : Prop :=
  match c with
  | CallUpdateCharacter _ _ e | CallAddPlotPoint _ _ e | CallUpdatePlotStatus _ _ e =>
      ∃ z, e = Some z ∧ n ≤ z
  end.


(** [m'] has every character and plot point of [m] under the same key,
    with the same identity and a history that starts with the one in [m]. *)
Definition history_kept (m m' : MemoryManager) : Prop :=
  (∀ k c, dict_get k (characters m) = Some c →
     ∃ c', dict_get k (characters m') = Some c'
       ∧ c_name c' = c_name c
       ∧ first_appearance c' = first_appearance c
       ∧ state_history c `prefix_of` state_history c')
  ∧ (∀ k p, dict_get k (plot_points m) = Some p →
       ∃ p', dict_get k (plot_points m') = Some p'
         ∧ id p' = id p
         ∧ summary p' = summary p
         ∧ episode_added p' = episode_added p
         ∧ status_history p `prefix_of` status_history p')
  ∧ plot_counter m ≤ plot_counter m'.


(** The lines that a loop of [get_context_summary] appends, from the
    outcome of each pass of its body: a line, no line, or an exception. *)
Fixpoint collect_lines (passes : list (result (option string))) : result (list string) :=
  match passes with
  | [] => Ok []
  | pass :: rest =>
      line ← pass; lines ← collect_lines rest;
      Ok (match line with Some text => text :: lines | None => lines end)
  end.

(** The pass of the character loop, and of the plot loop, on one entry. *)
Definition character_pass (n : Z) (kv : string * Character) : result (option string) :=
  s ← last_states n kv.2; Ok (character_line (kv.1, s)).

Definition plot_pass (n : Z) (kv : string * PlotPoint) : result (option string) :=
  s ← latest_status n kv.2; Ok (plot_line (kv.2, s)).


(** The last element of the script of a loop that has ended: the error
    marker after a [break], a scene with the end marker, or the limit
    annotation. *)
Definition script_closed (st : LoopState) : Prop :=
  (broke st = true →
     ∃ scenes n, full_episode_script st = scenes ++ [error_marker n])
  ∧ (broke st = false → episode_complete st = true →
       ∃ scenes t, full_episode_script st = scenes ++ [t]
         ∧ endswith t EPISODE_END = true).

(** The requests sent so far are those of the scenes 1, 2, ... in order,
    each with the bundle of the episode. *)
Definition requests_in_order (ctx : EpisodeContext) (st : LoopState) : Prop :=
  sr_scene_number <$> requests st = seqZ 1 (Z.of_nat (length (requests st)))
  ∧ Forall (λ r, sr_episode_number r = episode_number ctx
                 ∧ sr_episode_summary r = episode_summary ctx
                 ∧ sr_context_summary r = context_summary ctx
                 ∧ sr_character_info r = character_info ctx
                 ∧ sr_relevant_chunks r = relevant_chunks ctx) (requests st).


(** The number of plot points that [store_plan] adds for a plan: one for
    the objective of each episode and one for each of its key points. *)
Definition planned_plot_points (plan : StoryPlan) : nat :=
  sum_list_with (λ episode, S (length (pe_key_points episode))) (master_outline plan).

Definition is_add_call (c : StoreCall) : bool :=
  match c with CallAddPlotPoint _ _ _ => true | _ => false end.

(** A call that [store_plan] makes: a character state, or a plot point
    with the status [planned], both for episode 0. *)
Definition planning_call (c : StoreCall) : Prop :=
  match c with
  | CallUpdateCharacter _ _ e => e = Some 0
  | CallAddPlotPoint _ st e => st = "planned" ∧ e = Some 0
  | CallUpdatePlotStatus _ _ _ => False
  end.

(** A plot point as [store_plan] leaves it. *)
Definition planned_at_0 (p : PlotPoint) : Prop :=
  status p = "planned" ∧ episode_added p = Some 0
  ∧ status_history p = [{| st_episode := Some 0; st_status := "planned" |}].


(** * Properties *)

(** ** Facts about dictionaries and [str] *)

Section dict_facts.
Context {V : Type}.
Implicit Types (d : dict V) (k : string) (v : V).

Lemma dict_get_set_eq k v d : dict_get k (dict_set k v d) = Some v.
Proof.
  induction d as [|[k' v'] d IH]; simpl.
  - by rewrite String.eqb_refl.
  - destruct (String.eqb k k') eqn:E; simpl.
    + by rewrite String.eqb_refl.
    + by rewrite E.
Qed.

Lemma dict_get_set_ne k k' v d :
  k ≠ k' → dict_get k' (dict_set k v d) = dict_get k' d.
Proof.
  intros Hne. induction d as [|[k0 v0] d IH]; simpl.
  - destruct (String.eqb k' k) eqn:E; [|done].
    apply String.eqb_eq in E. congruence.
  - destruct (String.eqb k k0) eqn:E; simpl.
    + apply String.eqb_eq in E. subst k0.
      destruct (String.eqb k' k) eqn:E'; [|done].
      apply String.eqb_eq in E'. congruence.
    + by rewrite IH.
Qed.

Lemma dict_get_None_keys k d : dict_get k d = None ↔ k ∉ keys d.
Proof.
  unfold keys. induction d as [|[k' v'] d IH]; simpl.
  - split; [intros _; apply not_elem_of_nil | done].
  - rewrite not_elem_of_cons. destruct (String.eqb k k') eqn:E.
    + apply String.eqb_eq in E. split; [done | intros [? _]; done].
    + apply String.eqb_neq in E. rewrite IH. tauto.
Qed.

Lemma dict_get_Some_elem k v d : dict_get k d = Some v → (k, v) ∈ d.
Proof.
  induction d as [|[k' v'] d IH]; simpl; [done|].
  destruct (String.eqb k k') eqn:E.
  - apply String.eqb_eq in E. intros [= ->]. subst. apply list_elem_of_here.
  - intros H. apply list_elem_of_further. auto.
Qed.

Lemma dict_set_new k v d : dict_get k d = None → dict_set k v d = d ++ [(k, v)].
Proof.
  induction d as [|[k' v'] d IH]; simpl; [done|].
  destruct (String.eqb k k'); [done|]. intros H. by rewrite IH.
Qed.

Lemma keys_dict_set_old k v d :
  is_Some (dict_get k d) → keys (dict_set k v d) = keys d.
Proof.
  unfold keys. induction d as [|[k' v'] d IH]; simpl.
  - intros [? ?]; done.
  - destruct (String.eqb k k') eqn:E; simpl.
    + apply String.eqb_eq in E. by subst.
    + intros H. f_equal. by apply IH.
Qed.

Lemma keys_dict_set_NoDup k v d : NoDup (keys d) → NoDup (keys (dict_set k v d)).
Proof.
  intros Hnd. destruct (dict_get k d) as [v0|] eqn:E.
  - by rewrite keys_dict_set_old.
  - rewrite dict_set_new by done. unfold keys in *.
    rewrite fmap_app. simpl. apply NoDup_app. split; [done|]. split.
    + intros x Hx Hx'. apply list_elem_of_singleton in Hx'. subst x.
      by apply dict_get_None_keys in E.
    + apply NoDup_singleton.
Qed.
End dict_facts.

Lemma str_inj (a b : Z) : str a = str b → a = b.
Proof. unfold str. apply (inj pretty). Qed.

(** ** Plot point ids *)

Lemma add_plot_point_id s st e m : (add_plot_point s st e m).1 = plot_counter m + 1.
Proof. done. Qed.

Lemma add_plot_point_counter s st e m :
  plot_counter (add_plot_point s st e m).2 = plot_counter m + 1.
Proof. done. Qed.

Lemma add_plot_point_stored s st e m :
  dict_get (str (plot_counter m + 1)) (plot_points (add_plot_point s st e m).2)
  = Some (new_plot_point (plot_counter m + 1) (s, st, e)).
Proof. simpl. apply dict_get_set_eq. Qed.

Lemma add_plot_point_other s st e m (j : Z) :
  j ≠ plot_counter m + 1 →
  dict_get (str j) (plot_points (add_plot_point s st e m).2)
  = dict_get (str j) (plot_points m).
Proof.
  intros Hj. simpl. apply dict_get_set_ne. intros H. apply str_inj in H. lia.
Qed.

Lemma add_plot_points_cons s st e rest m :
  add_plot_points ((s, st, e) :: rest) m
  = ((add_plot_point s st e m).1
       :: (add_plot_points rest (add_plot_point s st e m).2).1,
     (add_plot_points rest (add_plot_point s st e m).2).2).
Proof.
  cbn [add_plot_points]. destruct (add_plot_point s st e m) as [pid m'].
  cbn [fst snd]. by destruct (add_plot_points rest m').
Qed.

Lemma add_plot_points_spec calls : ∀ m,
  (add_plot_points calls m).1 = seqZ (plot_counter m + 1) (Z.of_nat (length calls))
  ∧ plot_counter (add_plot_points calls m).2 = plot_counter m + Z.of_nat (length calls)
  ∧ (∀ j, j ≤ plot_counter m →
       dict_get (str j) (plot_points (add_plot_points calls m).2)
       = dict_get (str j) (plot_points m))
  ∧ (∀ (i : nat) call, calls !! i = Some call →
       dict_get (str (plot_counter m + 1 + Z.of_nat i))
                (plot_points (add_plot_points calls m).2)
       = Some (new_plot_point (plot_counter m + 1 + Z.of_nat i) call)).
Proof.
  induction calls as [|[[s st] e] rest IH]; intros m.
  - cbn [add_plot_points fst snd length]. split; [done|]. split; [lia|].
    split; [done|]. intros i call H. by rewrite lookup_nil in H.
  - rewrite add_plot_points_cons. cbn [fst snd length].
    destruct (IH (add_plot_point s st e m).2) as (Hids & Hcnt & Hold & Hnew).
    rewrite add_plot_point_counter in Hids, Hcnt, Hold, Hnew.
    rewrite add_plot_point_id. split; [|split; [|split]].
    + rewrite Nat2Z.inj_succ, seqZ_cons by lia. f_equal. rewrite Hids.
      f_equal; lia.
    + lia.
    + intros j Hj. rewrite Hold by lia. apply add_plot_point_other. lia.
    + intros [|i] call Hi; cbn in Hi.
      * injection Hi as <-. rewrite Z.add_0_r, Hold by lia.
        apply add_plot_point_stored.
      * specialize (Hnew i call Hi).
        replace (plot_counter m + 1 + Z.of_nat (S i))
          with (plot_counter m + 1 + 1 + Z.of_nat i) by lia.
        done.
Qed.

(** C3.  From a fresh store, one constructed over an empty storage
    location, any [k] calls of [add_plot_point] return the ids
    [1, 2, ..., k] in call order, and afterwards the plot point of the
    [i]-th call is stored under the key of its id. *)
Theorem C3_plot_ids_from_fresh_store (vs : option (list Document))
    (calls : list (string * string * option Z)) :
  ∃ fresh, MemoryManager_init vs empty_disk = Some fresh
    ∧ (add_plot_points calls fresh).1 = seqZ 1 (Z.of_nat (length calls))
    ∧ NoDup (add_plot_points calls fresh).1
    ∧ ∀ (i : nat) call, calls !! i = Some call →
        (add_plot_points calls fresh).1 !! i = Some (1 + Z.of_nat i)
        ∧ dict_get (str (1 + Z.of_nat i)) (plot_points (add_plot_points calls fresh).2)
          = Some (new_plot_point (1 + Z.of_nat i) call).
Proof.
  exists (empty_tables vs empty_disk). split; [reflexivity|].
  destruct (add_plot_points_spec calls (empty_tables vs empty_disk))
    as (Hids & _ & _ & Hnew).
  cbn [plot_counter empty_tables] in Hids, Hnew. rewrite Z.add_0_l in Hids.
  split; [done|]. split; [rewrite Hids; apply NoDup_seqZ|].
  intros i call Hi. split.
  - rewrite Hids. apply lookup_seqZ_lt. apply lookup_lt_Some in Hi. lia.
  - apply (Hnew i call Hi).
Qed.

Lemma C3_plot_ids_witness :
  let calls := [("Find the key", "planned", Some 0); ("A storm", "introduced", None)] in
  calls !! 1%nat = Some ("A storm", "introduced", None)
  ∧ ∃ fresh, MemoryManager_init None empty_disk = Some fresh
      ∧ (add_plot_points calls fresh).1 = [1; 2]
      ∧ dict_get "2" (plot_points (add_plot_points calls fresh).2)
        = Some (new_plot_point 2 ("A storm", "introduced", None)).
Proof.
  intros calls. split; [reflexivity|].
  destruct (C3_plot_ids_from_fresh_store None calls) as (fresh & Hf & Hids & _ & H).
  exists fresh. split; [done|]. split; [done|].
  apply (H 1%nat ("A storm", "introduced", None)). reflexivity.
Defined.

(** ** Unknown and known ids in [update_plot_status] *)

(** C9.  With an id that has no entry in the plot table,
    [update_plot_status] returns [False] and leaves the whole store, tables
    and files, as it was.  With a known id it returns [True], the plot
    point under that id gets the new current status and one more entry
    [(episode, new_status)] at the end of its history, and nothing else of
    the tables changes. *)
Theorem C9_update_plot_status (m : MemoryManager) (plot_id : Z)
    (new_status : string) (episode_number : option Z) :
  (dict_get (str plot_id) (plot_points m) = None →
     update_plot_status plot_id new_status episode_number m = (false, m))
  ∧ (∀ p, dict_get (str plot_id) (plot_points m) = Some p →
       let r := update_plot_status plot_id new_status episode_number m in
       r.1 = true
       ∧ dict_get (str plot_id) (plot_points r.2)
         = Some (with_status p new_status episode_number)
       ∧ (∀ k, k ≠ str plot_id →
            dict_get k (plot_points r.2) = dict_get k (plot_points m))
       ∧ keys (plot_points r.2) = keys (plot_points m)
       ∧ characters r.2 = characters m
       ∧ plot_counter r.2 = plot_counter m).
Proof.
  split.
  - intros Hnone. unfold update_plot_status. by rewrite Hnone.
  - intros p Hp. unfold update_plot_status. rewrite Hp. cbn.
    split; [done|]. split; [apply dict_get_set_eq|].
    split; [intros k Hk; by apply dict_get_set_ne|].
    split; [|done]. apply keys_dict_set_old. by rewrite Hp.
Qed.

Lemma C9_update_plot_status_witness :
  dict_get (str 7) (plot_points one_plot_store) = None
  ∧ update_plot_status 7 "resolved" (Some 2) one_plot_store = (false, one_plot_store)
  ∧ dict_get (str 1) (plot_points one_plot_store)
    = Some (new_plot_point 1 ("Find the key", "planned", Some 0))
  ∧ dict_get (str 1)
      (plot_points (update_plot_status 1 "resolved" (Some 2) one_plot_store).2)
    = Some (with_status (new_plot_point 1 ("Find the key", "planned", Some 0))
              "resolved" (Some 2)).
Proof.
  pose proof (C9_update_plot_status one_plot_store 7 "resolved" (Some 2)) as [H7 _].
  pose proof (C9_update_plot_status one_plot_store 1 "resolved" (Some 2)) as [_ H1].
  split; [reflexivity|]. split; [apply H7; reflexivity|].
  split; [reflexivity|].
  apply (H1 (new_plot_point 1 ("Find the key", "planned", Some 0))). reflexivity.
Defined.

(** ** Round trip of the tables through the files *)








Lemma unique_keys_empty vs d : unique_keys (empty_tables vs d).
Proof. split; apply NoDup_nil_2. Qed.

Lemma unique_keys_run_call m c : unique_keys m → unique_keys (run_call m c).
Proof.
  intros [Hc Hp]. destruct c as [n s e|s st e|i st e]; cbn.
  - split; [|done]. unfold update_character_state. cbn.
    set (chars := if dict_mem n (characters m) then _ else _).
    assert (NoDup (keys chars)) as Hchars.
    { unfold chars. destruct (dict_mem n (characters m)); [done|].
      by apply keys_dict_set_NoDup. }
    destruct (dict_get n chars); [by apply keys_dict_set_NoDup | done].
  - split; [done|]. by apply keys_dict_set_NoDup.
  - unfold update_plot_status. destruct (dict_get (str i) (plot_points m)); cbn.
    + split; [done|]. by apply keys_dict_set_NoDup.
    + done.
Qed.

Lemma unique_keys_run_calls cs : ∀ m, unique_keys m → unique_keys (run_calls m cs).
Proof.
  induction cs as [|c cs IH]; intros m Hm; [done|].
  cbn. apply IH. by apply unique_keys_run_call.
Qed.







(** ** The causal filter of [get_context_summary] *)

Lemma before_Some n e : before n e = true ↔ ∃ z, e = Some z ∧ z < n.
Proof.
  destruct e as [z|]; cbn.
  - rewrite bool_decide_eq_true. split; [eauto|]. by intros (z' & [= <-] & H).
  - split; [done|]. by intros (z & H & _).
Qed.

Lemma lt_Ok e n b : lt e n = Ok b ↔ is_Some e ∧ b = before n e.
Proof.
  destruct e as [z|]; cbn.
  - split; [intros [= <-]; eauto | intros [_ ->]; done].
  - split; [done | intros [[? ?] _]; done].
Qed.

Lemma lt_cases e n : lt e n = Ok (before n e) ∧ is_Some e ∨ lt e n = TypeError ∧ e = None.
Proof. destruct e; cbn; eauto. Qed.

Section traversals.
Context {A B : Type}.

Lemma traverse_Ok (f : A → result B) l r :
  traverse f l = Ok r ↔ Forall2 (λ x y, f x = Ok y) l r.
Proof.
  revert r. induction l as [|a l IH]; intros r; cbn.
  - split; [intros [= <-]; constructor | by inversion 1].
  - destruct (f a) as [b| |] eqn:Ea; cbn.
    + destruct (traverse f l) as [bs| |] eqn:El; cbn.
      * split.
        -- intros [= <-]. constructor; [done|]. by apply IH.
        -- inversion 1 as [|? y ? r' Hy Hr]; subst.
           apply IH in Hr. congruence.
      * split; [done|]. inversion 1 as [|? y ? r' Hy Hr]; subst.
        apply IH in Hr. done.
      * split; [done|]. inversion 1 as [|? y ? r' Hy Hr]; subst.
        apply IH in Hr. done.
    + split; [done|]. inversion 1 as [|? y ? r' Hy Hr]; congruence.
    + split; [done|]. inversion 1 as [|? y ? r' Hy Hr]; congruence.
Qed.

Lemma traverse_TypeError (f : A → result B) l :
  (∀ x, x ∈ l → f x ≠ OutOfFuel) →
  (∃ x, x ∈ l ∧ f x = TypeError) →
  traverse f l = TypeError.
Proof.
  induction l as [|a l IH]; intros Hfuel (x & Hx & Hfx).
  - by apply elem_of_nil in Hx.
  - cbn. destruct (f a) as [b| |] eqn:Ea; cbn; [|done|].
    + rewrite IH; [done| |].
      * intros y Hy. apply Hfuel. by apply list_elem_of_further.
      * apply elem_of_cons in Hx as [->|Hx]; [congruence|]. eauto.
    + exfalso. apply (Hfuel a); [apply list_elem_of_here | done].
Qed.

Lemma traverse_no_OutOfFuel (f : A → result B) l :
  (∀ x, x ∈ l → f x ≠ OutOfFuel) → traverse f l ≠ OutOfFuel.
Proof.
  induction l as [|a l IH]; intros Hfuel; cbn; [done|].
  destruct (f a) as [b| |] eqn:Ea; cbn; [|done|].
  - destruct (traverse f l) eqn:El; cbn; [done|done|].
    exfalso. apply IH; [|done]. intros y Hy. apply Hfuel.
    by apply list_elem_of_further.
  - exfalso. apply (Hfuel a); [apply list_elem_of_here | done].
Qed.

Lemma filterM_lt_cases (ep : A → option Z) n l :
  filterM (λ x, lt (ep x) n) l = Ok (filter (λ x, before n (ep x)) l)
    ∧ Forall (λ x, is_Some (ep x)) l
  ∨ filterM (λ x, lt (ep x) n) l = TypeError
    ∧ Exists (λ x, ep x = None) l.
Proof.
  induction l as [|a l IH]; cbn.
  - left. split; [done | constructor].
  - destruct (lt_cases (ep a) n) as [[-> Ha]|[-> Ha]]; cbn.
    + destruct IH as [[-> Hl]|[-> Hl]]; cbn.
      * left. split; [|by constructor].
        destruct (before n (ep a)) eqn:Eb.
        -- rewrite decide_True; [done | done].
        -- rewrite decide_False; [done | by intros []].
      * right. split; [done | by apply Exists_cons_tl].
    + right. split; [done | by apply Exists_cons_hd].
Qed.

Lemma filterM_lt_Ok (ep : A → option Z) n l r :
  filterM (λ x, lt (ep x) n) l = Ok r →
  r = filter (λ x, before n (ep x)) l ∧ Forall (λ x, is_Some (ep x)) l.
Proof.
  intros H. destruct (filterM_lt_cases ep n l) as [[E Hl]|[E _]]; rewrite E in H.
  - by injection H as <-.
  - done.
Qed.

End traversals.



Lemma last_states_no_OutOfFuel n c : last_states n c ≠ OutOfFuel.
Proof.
  unfold last_states, relevant_history.
  destruct (lt_cases (first_appearance c) n) as [[-> _]|[-> _]]; cbn; [|done].
  destruct (before n (first_appearance c)); [|done].
  by destruct (filterM_lt_cases se_episode n (state_history c)) as [[-> _]|[-> _]].
Qed.

Lemma latest_status_no_OutOfFuel n p : latest_status n p ≠ OutOfFuel.
Proof.
  unfold latest_status, relevant_status.
  destruct (lt_cases (episode_added p) n) as [[-> _]|[-> _]]; cbn; [|done].
  destruct (before n (episode_added p)); [|done].
  by destruct (filterM_lt_cases st_episode n (status_history p)) as [[-> _]|[-> _]].
Qed.


(** What [latest_status] returns when it returns. *)
Lemma latest_status_Ok n p shown :
  latest_status n p = Ok shown →
  is_Some (episode_added p)
  ∧ (before n (episode_added p) = false ∧ shown = None
     ∨ before n (episode_added p) = true
       ∧ relevant_status n (status_history p)
         = Ok (filter (λ e, before n (st_episode e)) (status_history p))
       ∧ shown = last (filter (λ e, before n (st_episode e)) (status_history p))).
Proof.
  unfold latest_status, relevant_status.
  destruct (lt_cases (episode_added p) n) as [[-> Hf]|[-> _]]; cbn; [|done].
  destruct (before n (episode_added p)).
  - destruct (filterM_lt_cases st_episode n (status_history p)) as [[-> _]|[-> _]];
      cbn; [|done].
    intros [= <-]. eauto.
  - intros [= <-]. eauto.
Qed.


Lemma shown_statuses_Ok m n ps :
  shown_statuses m n = Ok ps ↔
  Forall2 (λ kv r, ∃ s, latest_status n kv.2 = Ok s ∧ r = (kv.2, s)) (plot_points m) ps.
Proof.
  unfold shown_statuses. rewrite traverse_Ok.
  split; intros H; eapply Forall2_impl; [exact H| |exact H|];
    intros [k c] r; cbn; destruct (latest_status n c) as [s| |]; cbn.
  - intros [= <-]; eauto.
  - done.
  - done.
  - by intros (s' & [= <-] & ->).
  - by intros (s' & ? & _).
  - by intros (s' & ? & _).
Qed.

Lemma get_context_summary_Ok m n txt :
  get_context_summary m n = Ok txt ↔
  ∃ cs ps, shown_states m n = Ok cs ∧ shown_statuses m n = Ok ps
    ∧ txt = combine_summaries (omap character_line cs) (omap plot_line ps).
Proof.
  unfold get_context_summary.
  destruct (shown_states m n) as [cs| |]; cbn.
  - destruct (shown_statuses m n) as [ps| |]; cbn.
    + split; [intros [= <-]; eauto | intros (? & ? & [= <-] & [= <-] & ->); done].
    + split; [done | intros (? & ? & _ & ? & _); done].
    + split; [done | intros (? & ? & _ & ? & _); done].
  - split; [done | intros (? & ? & ? & _); done].
  - split; [done | intros (? & ? & ? & _); done].
Qed.



(** ** Which status entry is shown *)

Lemma last_filter_split {A} (P : A → Prop) `{!∀ x, Decision (P x)} (l : list A) x :
  last (filter P l) = Some x →
  ∃ l1 l2, l = l1 ++ x :: l2 ∧ P x ∧ Forall (λ y, ¬ P y) l2.
Proof.
  induction l as [|a l IH] using rev_ind; [done|].
  rewrite filter_app, filter_cons, filter_nil. destruct (decide (P a)) as [Ha|Ha].
  - rewrite last_snoc. intros [= ->]. exists l, []. split; [done|]. split; [done|].
    constructor.
  - rewrite app_nil_r. intros Hl. destruct (IH Hl) as (l1 & l2 & -> & Hx & Hl2).
    exists l1, (l2 ++ [a]). split; [by rewrite <- (assoc_L (++))|]. split; [done|].
    apply Forall_app. split; [done|]. by constructor.
Qed.

(** In [sample_store] the plot point was resolved at episode 3 and then,
    by a later call, set active for episode 1: the summary of episode 5
    shows the entry of episode 1. *)
Lemma C6_latest_by_episode_counterexample :
  get_context_summary sample_store 5 = Ok "CHARACTER CONTEXT:
Ana: Episode 1: hurt in the crash; Episode 2: recovers
Bo: Episode 2: joins the crew

PLOT CONTEXT:
Plot: Find the key - Status as of Episode 1: active"
  ∧ ¬ shows_latest_by_episode sample_store 5.
Proof.
  split; [vm_compute; reflexivity|]. intros H.
  destruct (H "1" sample_plot
              {| st_episode := Some 1; st_status := "active" |})
    with (st := {| st_episode := Some 3; st_status := "resolved" |}) (z := 3)
    as (zs & Hzs & Hle).
  - vm_compute. apply list_elem_of_here.
  - reflexivity.
  - vm_compute. reflexivity.
  - vm_compute. apply list_elem_of_further, list_elem_of_here.
  - reflexivity.
  - lia.
  - cbn in Hzs. injection Hzs as <-. lia.
Qed.

(** C6, amended.  For every plot point with [episode_added < n], the
    summary of episode [n] shows the status entry that is last in insertion
    order among those with episode [< n].  It is the entry with the
    greatest episode when the history was appended in episode order. *)
Theorem C6_latest_status_by_insertion (m : MemoryManager) (n : Z) (txt : string) :
  get_context_summary m n = Ok txt →
  ∃ cs ps,
    shown_statuses m n = Ok ps
    ∧ txt = combine_summaries (omap character_line cs) (omap plot_line ps)
    ∧ ∀ k p, (k, p) ∈ plot_points m → before n (episode_added p) = true →
        let shown := last (filter (λ e, before n (st_episode e)) (status_history p)) in
        latest_status n p = Ok shown
        ∧ (p, shown) ∈ ps
        ∧ (episode_ordered (status_history p) →
           ∀ st' st z, shown = Some st' → st ∈ status_history p →
             st_episode st = Some z → z < n →
             ∃ zs, st_episode st' = Some zs ∧ z ≤ zs).
Proof.
  intros H. apply get_context_summary_Ok in H as (cs & ps & Hcs & Hps & ->).
  exists cs, ps. split; [done|]. split; [done|].
  apply shown_statuses_Ok in Hps.
  intros k p Hin Hadded shown.
  destruct (proj1 (list_elem_of_lookup _ _) Hin) as [i Hi].
  destruct (Forall2_lookup_l _ _ _ _ _ Hps Hi) as (r & Hr & s & Hs & ->).
  cbn in *. pose proof Hs as Hs'.
  apply latest_status_Ok in Hs' as (_ & [[Hb _]|(_ & _ & ->)]); [congruence|].
  split; [done|]. split; [apply list_elem_of_lookup; eauto|].
  intros Hord st' st z Hshown Hst Hz Hlt. unfold shown in Hshown.
  apply last_filter_split in Hshown as (l1 & l2 & Hh & Hvis & Hl2).
  apply Is_true_true, before_Some in Hvis as (zs & Hzs & _).
  exists zs. split; [done|].
  rewrite Hh in Hst. apply elem_of_app in Hst as [Hst|Hst].
  - apply list_elem_of_lookup in Hst as [a Ha].
    apply (Hord a (length l1) st st' z zs); [| | |done|done].
    + apply lookup_lt_Some in Ha. lia.
    + rewrite Hh. by rewrite lookup_app_l by (by eapply lookup_lt_Some).
    + rewrite Hh. by rewrite list_lookup_middle.
  - apply elem_of_cons in Hst as [->|Hst].
    + rewrite Hzs in Hz. injection Hz as <-. lia.
    + exfalso. rewrite Forall_forall in Hl2. apply (Hl2 st Hst).
      apply Is_true_true, before_Some. eauto.
Qed.

Lemma C6_latest_status_by_insertion_witness :
  ∃ txt, get_context_summary sample_store 5 = Ok txt
    ∧ latest_status 5 sample_plot
      = Ok (Some {| st_episode := Some 1; st_status := "active" |}).
Proof.
  eexists. split; [vm_compute; reflexivity|].
  destruct (C6_latest_status_by_insertion sample_store 5 _ eq_refl)
    as (cs & ps & _ & _ & H).
  destruct (H "1" sample_plot) as [Hl _].
  - vm_compute. apply list_elem_of_here.
  - reflexivity.
  - exact Hl.
Defined.

(** ** [None] as the episode of a plot point *)

Lemma elem_of_dict_set {V} k (v : V) d kv :
  kv ∈ dict_set k v d → kv = (k, v) ∨ kv ∈ d.
Proof.
  induction d as [|[k' v'] d IH]; cbn.
  - intros H. apply list_elem_of_singleton in H. by left.
  - destruct (String.eqb k k').
    + intros H. apply elem_of_cons in H as [->|H]; [by left|].
      right. by apply list_elem_of_further.
    + intros H. apply elem_of_cons in H as [->|H]; [right; apply list_elem_of_here|].
      destruct (IH H) as [->|H']; [by left|]. right. by apply list_elem_of_further.
Qed.

Lemma has_undated_plot_run_call m c : has_undated_plot m → has_undated_plot (run_call m c).
Proof.
  intros (j & p & Hj & Hp & He). unfold has_undated_plot.
  destruct c as [nm s e|s st e|i st e]; cbn.
  - exists j, p. split; [exact Hj|]. split; [exact Hp | exact He].
  - exists j, p. split; [lia|]. split; [|done].
    rewrite dict_get_set_ne; [done|]. intros H. apply str_inj in H. lia.
  - unfold update_plot_status.
    destruct (dict_get (str i) (plot_points m)) as [q|] eqn:Eq; cbn.
    + destruct (decide (i = j)) as [->|Hne].
      * exists j, (with_status p st e). split; [done|].
        rewrite Hp in Eq. injection Eq as <-.
        split; [apply dict_get_set_eq | done].
      * exists j, p. split; [done|]. split; [|done].
        rewrite dict_get_set_ne; [done|]. intros H. by apply str_inj in H.
    + exists j, p. split; [exact Hj|]. split; [exact Hp | exact He].
Qed.

Lemma has_undated_plot_run_calls cs : ∀ m,
  has_undated_plot m → has_undated_plot (run_calls m cs).
Proof.
  induction cs as [|c cs IH]; intros m Hm; [done|].
  cbn. apply IH. by apply has_undated_plot_run_call.
Qed.

Lemma shown_states_no_OutOfFuel m n : shown_states m n ≠ OutOfFuel.
Proof.
  apply traverse_no_OutOfFuel. intros [k c] _. cbn.
  pose proof (last_states_no_OutOfFuel n c). by destruct (last_states n c).
Qed.

Lemma shown_statuses_no_OutOfFuel m n : shown_statuses m n ≠ OutOfFuel.
Proof.
  apply traverse_no_OutOfFuel. intros [k c] _. cbn.
  pose proof (latest_status_no_OutOfFuel n c). by destruct (latest_status n c).
Qed.

Lemma get_context_summary_undated m n :
  has_undated_plot m → get_context_summary m n = TypeError.
Proof.
  intros (j & p & _ & Hp & He). unfold get_context_summary.
  pose proof (shown_states_no_OutOfFuel m n) as Hfuel.
  destruct (shown_states m n) as [cs| |]; cbn; [|done|done].
  assert (shown_statuses m n = TypeError) as ->; [|done].
  apply traverse_TypeError.
  - intros [k q] _. cbn.
    pose proof (latest_status_no_OutOfFuel n q). by destruct (latest_status n q).
  - exists (str j, p). split; [by apply dict_get_Some_elem|].
    cbn. unfold latest_status. by rewrite He.
Qed.

Lemma plot_episodes_numeric_add s st z m :
  plot_episodes_numeric m → plot_episodes_numeric (add_plot_point s st (Some z) m).2.
Proof.
  intros Hm k p Hin. cbn in Hin. apply elem_of_dict_set in Hin as [[= -> ->]|Hin].
  - cbn. eauto.
  - by eapply Hm.
Qed.

Lemma plot_episodes_numeric_update_status i st e m :
  plot_episodes_numeric m → plot_episodes_numeric (update_plot_status i st e m).2.
Proof.
  intros Hm. unfold update_plot_status.
  destruct (dict_get (str i) (plot_points m)) as [q|] eqn:Eq; cbn; [|done].
  intros k p Hin. cbn in Hin. apply elem_of_dict_set in Hin as [[= -> ->]|Hin].
  - cbn. eapply Hm. by apply dict_get_Some_elem.
  - by eapply Hm.
Qed.

Lemma foldl_invariant {S X} (P : S → Prop) (f : S → X → S) (l : list X) :
  (∀ s x, P s → P (f s x)) → ∀ s, P s → P (foldl f s l).
Proof.
  intros Hf. induction l as [|x l IH]; intros s Hs; [done|].
  cbn. apply IH, Hf, Hs.
Qed.

Lemma plot_episodes_numeric_store_plan svc plan m :
  plot_episodes_numeric m → plot_episodes_numeric (store_plan svc plan m).2.
Proof.
  intros Hm. destruct plan as [plan|]; [|done]. cbn [store_plan snd].
  assert (∀ text type_ ep m', plot_episodes_numeric m' →
            plot_episodes_numeric (add_document_chunks svc text type_ ep m').2) as Hdoc.
  { intros text type_ ep m' Hm'. unfold add_document_chunks.
    destruct (vector_store m'); [|done]. by destruct (embeddings_ok svc). }
  apply Hdoc. apply foldl_invariant.
  - intros m' ep Hm'. unfold store_episode_plan. apply foldl_invariant.
    + intros m'' pt Hm''. by apply plot_episodes_numeric_add.
    + by apply plot_episodes_numeric_add.
  - apply foldl_invariant; [|done]. intros m' ch Hm'. exact Hm'.
Qed.

(** The vector store operations leave the tables alone. *)
Lemma add_chunks_tables svc chunks z m :
  plot_points (add_chunks_to_vector_store svc chunks z m).2 = plot_points m
  ∧ characters (add_chunks_to_vector_store svc chunks z m).2 = characters m.
Proof.
  unfold add_chunks_to_vector_store. destruct (embeddings_ok svc); [|done].
  destruct (filter _ chunks); by destruct (vector_store m).
Qed.

Lemma plot_episodes_numeric_update_memory svc script_text z m :
  plot_episodes_numeric m →
  plot_episodes_numeric (update_memory_from_script svc script_text z m).
Proof.
  intros Hm. unfold update_memory_from_script.
  set (m1 := match extraction_completion svc _ with Some _ => _ | None => _ end).
  assert (plot_episodes_numeric m1) as Hm1.
  { unfold m1. destruct (extraction_completion svc _) as [info|]; [|done].
    unfold apply_extracted_info. apply foldl_invariant.
    - intros m' s Hm'. by apply plot_episodes_numeric_add.
    - apply foldl_invariant.
      + intros m' [[i|t|] st] Hm'; cbn; [|done|done].
        by apply plot_episodes_numeric_update_status.
      + apply foldl_invariant; [|done]. intros m' u Hm'. exact Hm'. }
  unfold plot_episodes_numeric. by rewrite (proj1 (add_chunks_tables _ _ _ _)).
Qed.

(** C10.  If [get_context_summary(n)] returns for some [n], the
    [episode_added] of every plot point is a number.  After a call of
    [add_plot_point] with [episode_added=None], and whatever calls of the
    mutators follow, [get_context_summary(n)] raises [TypeError] for every
    [n].  The callers in the repository pass integers: [store_plan] and
    [update_memory_from_script] keep every [episode_added] a number. *)
Theorem C10_undated_plot_point_breaks_summary :
  (∀ m n txt, get_context_summary m n = Ok txt → plot_episodes_numeric m)
  ∧ (∀ m summary_ status_ cs n,
       get_context_summary
         (run_calls (add_plot_point summary_ status_ None m).2 cs) n = TypeError)
  ∧ (∀ svc plan m, plot_episodes_numeric m →
       plot_episodes_numeric (store_plan svc plan m).2)
  ∧ (∀ svc script_text episode_number m, plot_episodes_numeric m →
       plot_episodes_numeric (update_memory_from_script svc script_text episode_number m)).
Proof.
  split; [|split; [|split]].
  - intros m n txt H k p Hin.
    apply get_context_summary_Ok in H as (cs & ps & _ & Hps & _).
    apply shown_statuses_Ok in Hps.
    destruct (proj1 (list_elem_of_lookup _ _) Hin) as [i Hi].
    destruct (Forall2_lookup_l _ _ _ _ _ Hps Hi) as (r & _ & s & Hs & _).
    by apply latest_status_Ok in Hs as [? _].
  - intros m s st cs n. apply get_context_summary_undated.
    apply has_undated_plot_run_calls. unfold has_undated_plot.
    exists (plot_counter m + 1), (new_plot_point (plot_counter m + 1) (s, st, None)).
    split; [cbn; lia|]. split; [apply add_plot_point_stored | done].
  - apply plot_episodes_numeric_store_plan.
  - apply plot_episodes_numeric_update_memory.
Qed.

Lemma C10_undated_plot_point_breaks_summary_witness :
  (∃ txt, get_context_summary sample_store 2 = Ok txt)
  ∧ plot_episodes_numeric sample_store
  ∧ get_context_summary
      (run_calls (add_plot_point "A storm" "introduced" None sample_store).2
                 [CallUpdatePlotStatus 2 "resolved" (Some 1)]) 2 = TypeError.
Proof.
  destruct C10_undated_plot_point_breaks_summary as (Ha & Hb & _ & _).
  split; [eexists; vm_compute; reflexivity|]. split.
  - apply (Ha sample_store 2 _ eq_refl).
  - apply Hb.
Defined.

(** ** The scene loop *)

Lemma loop_invariant_init : loop_invariant loop_init.
Proof.
  split; cbn; try done.
  intros _. exists []. done.
Qed.

Lemma loop_running_true st :
  loop_running st = true ↔
  broke st = false ∧ scene_number st ≤ MAX_SCENES_PER_EPISODE
  ∧ episode_complete st = false.
Proof.
  unfold loop_running. rewrite !andb_true_iff, !negb_true_iff, bool_decide_eq_true.
  tauto.
Qed.

Lemma loop_body_scene_number svc ctx st :
  scene_number (loop_body svc ctx st)
  = scene_number st + (if broke (loop_body svc ctx st) then 0 else 1).
Proof.
  unfold loop_body. destruct (_generate_scene svc ctx _ _) as [[sc up] co].
  destruct (contains SCENE_ERROR sc); cbn; lia.
Qed.

Lemma loop_body_invariant svc ctx st :
  loop_invariant st → loop_running st = true → loop_invariant (loop_body svc ctx st).
Proof.
  intros [Hlo Hup Hreq Hbr Hscr] (Hb & Hn & Hc)%loop_running_true.
  destruct (Hscr Hb) as (scenes & Hlen & Hfull).
  rewrite Hb in Hreq. rewrite Hc in Hfull.
  rewrite bool_decide_eq_false_2 in Hfull by lia. cbn in Hfull.
  unfold loop_body. destruct (_generate_scene svc ctx _ _) as [[sc up] co].
  destruct (contains SCENE_ERROR sc); split; cbn; try lia; try done.
  - rewrite length_app. cbn. lia.
  - rewrite length_app. cbn. lia.
  - intros _. exists (scenes ++ [sc]). split.
    + rewrite length_app. cbn. lia.
    + rewrite Hfull. done.
Qed.

Lemma scene_loop_fuel_mono svc ctx fuel : ∀ st st',
  scene_loop fuel svc ctx st = Ok st' → scene_loop (S fuel) svc ctx st = Ok st'.
Proof.
  induction fuel as [|fuel IH]; intros st st'; cbn.
  - destruct (loop_running st); done.
  - destruct (loop_running st); [|done]. apply IH.
Qed.

Lemma scene_loop_fuel_le svc ctx fuel fuel' st st' :
  (fuel ≤ fuel')%nat →
  scene_loop fuel svc ctx st = Ok st' → scene_loop fuel' svc ctx st = Ok st'.
Proof.
  induction 1 as [|fuel' _ IH]; [done|]. intros H. by apply scene_loop_fuel_mono, IH.
Qed.

(** From any state of the loop, the scenes that remain are fuel enough. *)
Lemma scene_loop_terminates svc ctx fuel : ∀ st,
  loop_invariant st →
  (Z.to_nat (MAX_SCENES_PER_EPISODE + 1 - scene_number st) ≤ fuel)%nat →
  ∃ st', scene_loop fuel svc ctx st = Ok st'
    ∧ loop_invariant st' ∧ loop_running st' = false.
Proof.
  induction fuel as [|fuel IH]; intros st Hinv Hfuel.
  - cbn. destruct (loop_running st) eqn:Hrun; [|eauto].
    apply loop_running_true in Hrun as (_ & Hn & _). lia.
  - cbn. destruct (loop_running st) eqn:Hrun; [|eauto].
    pose proof (loop_body_invariant svc ctx st Hinv Hrun) as Hinv'.
    pose proof (loop_body_scene_number svc ctx st) as Hnum.
    apply loop_running_true in Hrun as (_ & Hn & _).
    destruct (broke (loop_body svc ctx st)) eqn:Hb.
    + destruct fuel as [|fuel]; cbn; unfold loop_running at 1; rewrite Hb; cbn.
      * exists (loop_body svc ctx st). split; [done|]. split; [done|].
        unfold loop_running. by rewrite Hb.
      * exists (loop_body svc ctx st). split; [done|]. split; [done|].
        unfold loop_running. by rewrite Hb.
    + apply IH; [done|]. lia.
Qed.

Lemma prefix_app_l (t x : string) : String.prefix t (t +:+ x) = true.
Proof.
  induction t as [|a t IH]; simpl.
  - by destruct x.
  - destruct (Ascii.ascii_dec a a); [exact IH | congruence].
Qed.

Lemma contains_app_l (t x : string) : contains t (t +:+ x) = true.
Proof.
  destruct t as [|a t]; [by destruct x|].
  change (contains (String a t) (String a t +:+ x))
    with (String.prefix (String a t) (String a t +:+ x)
          || contains (String a t) (t +:+ x)).
  by rewrite prefix_app_l.
Qed.

Lemma loop_body_accepted svc ctx st t ts :
  scenes_generated svc ctx (scene_number st) (previous_scenes_summary st) (t :: ts)
  = true →
  loop_body svc ctx st
  = {| full_episode_script :=
         if bool_decide (scene_number st + 1 > MAX_SCENES_PER_EPISODE)
         then (full_episode_script st ++ [t]) ++ [SCENE_LIMIT]
         else full_episode_script st ++ [t];
       scene_number := scene_number st + 1;
       previous_scenes_summary := previous_scenes_summary st +:+ "

" +:+ t;
       episode_complete := false;
       broke := false;
       requests := requests st
         ++ [scene_request ctx (scene_number st) (previous_scenes_summary st)] |}
  ∧ scenes_generated svc ctx (scene_number st + 1)
      (previous_scenes_summary st +:+ "

" +:+ t) ts = true.
Proof.
  cbn [scenes_generated]. unfold loop_body, _generate_scene.
  destruct (scene_completion svc _) as [content|]; [|done].
  rewrite !andb_true_iff, !negb_true_iff.
  intros [[[->%String.eqb_eq Hend] Herr] Hrest].
  rewrite Herr, Hend. cbn [negb]. rewrite andb_true_r. done.
Qed.

Lemma scene_loop_accepts svc ctx ts : ∀ fuel st,
  broke st = false → episode_complete st = false →
  scene_number st + Z.of_nat (length ts) ≤ MAX_SCENES_PER_EPISODE →
  scenes_generated svc ctx (scene_number st) (previous_scenes_summary st) ts = true →
  scene_loop (length ts + fuel) svc ctx st
  = scene_loop fuel svc ctx (after_scenes ctx st ts).
Proof.
  induction ts as [|t ts IH]; intros fuel st Hb Hc Hn Hgen.
  - unfold after_scenes. cbn. destruct st as [f n p c b r]. cbn in *. subst.
    by rewrite Z.add_0_r, !app_nil_r.
  - cbn [length Nat.add scene_loop].
    assert (loop_running st = true) as ->.
    { apply loop_running_true. cbn [length] in Hn. split; [done|]. split; [lia|done]. }
    destruct (loop_body_accepted _ _ _ _ _ Hgen) as [Hbody Hrest].
    cbn [length] in Hn. rewrite bool_decide_eq_false_2 in Hbody by lia.
    rewrite Hbody. rewrite IH; cbn; try done; try lia.
    f_equal. unfold after_scenes. cbn.
    rewrite <- !(assoc_L (++)). cbn.
    replace (scene_number st + 1 + Z.of_nat (length ts))
      with (scene_number st + Z.pos (Pos.of_succ_nat (length ts))) by lia.
    done.
Qed.

Lemma scenes_generated_app svc ctx ts1 : ∀ n prev ts2,
  scenes_generated svc ctx n prev (ts1 ++ ts2)
  = scenes_generated svc ctx n prev ts1
    && scenes_generated svc ctx (n + Z.of_nat (length ts1)) (rolling_summary prev ts1) ts2.
Proof.
  induction ts1 as [|t ts1 IH]; intros n prev ts2.
  - cbn. by rewrite Z.add_0_r.
  - cbn [app scenes_generated length]. destruct (scene_completion svc _); [|done].
    rewrite IH. rewrite <- !andb_assoc. do 3 f_equal.
    replace (n + Z.of_nat (S (length ts1))) with (n + 1 + Z.of_nat (length ts1)) by lia.
    done.
Qed.

Lemma scene_requests_app ctx ts1 : ∀ n prev ts2,
  scene_requests ctx n prev (ts1 ++ ts2)
  = scene_requests ctx n prev ts1
    ++ scene_requests ctx (n + Z.of_nat (length ts1)) (rolling_summary prev ts1) ts2.
Proof.
  induction ts1 as [|t ts1 IH]; intros n prev ts2.
  - cbn. by rewrite Z.add_0_r.
  - cbn [app scene_requests length]. rewrite IH. f_equal. f_equal.
    replace (n + Z.of_nat (S (length ts1))) with (n + 1 + Z.of_nat (length ts1)) by lia.
    done.
Qed.

Lemma scene_requests_length ctx ts : ∀ n prev,
  length (scene_requests ctx n prev ts) = length ts.
Proof. induction ts as [|t ts IH]; intros n prev; cbn; [done|]. by rewrite IH. Qed.

Lemma scene_requests_numbers ctx ts : ∀ n prev,
  sr_scene_number <$> scene_requests ctx n prev ts = seqZ n (Z.of_nat (length ts)).
Proof.
  induction ts as [|t ts IH]; intros n prev; [done|].
  cbn [scene_requests length fmap list_fmap]. rewrite IH.
  rewrite Nat2Z.inj_succ, (seqZ_cons n) by lia. cbn. do 2 f_equal. lia.
Qed.

(** C4.  For every service and every episode, the loop of
    [generate_episode_script] returns: the while test is false after at
    most [MAX_SCENES_PER_EPISODE] runs of its body, whatever the service
    answers, and more fuel changes nothing.  The service is called at most
    10 times.  When the loop ends past the cap with no end signal, the
    script is ten scenes followed by the limit annotation; this is the case
    when the service answers ten scenes without the end marker. *)
Theorem C4_scene_cap (svc : Services) (ctx : EpisodeContext) :
  ∃ st,
    scene_loop scene_fuel svc ctx loop_init = Ok st
    ∧ (∀ fuel, (scene_fuel ≤ fuel)%nat → scene_loop fuel svc ctx loop_init = Ok st)
    ∧ loop_running st = false
    ∧ generate_episode_script svc ctx = Ok (join "

" (full_episode_script st))
    ∧ Z.of_nat (length (requests st)) ≤ MAX_SCENES_PER_EPISODE
    ∧ (scene_number st > MAX_SCENES_PER_EPISODE → episode_complete st = false →
       ∃ scenes, Z.of_nat (length scenes) = MAX_SCENES_PER_EPISODE
         ∧ full_episode_script st = scenes ++ [SCENE_LIMIT])
    ∧ (∀ ts, Z.of_nat (length ts) = MAX_SCENES_PER_EPISODE →
         scenes_generated svc ctx 1 "" ts = true →
         full_episode_script st = ts ++ [SCENE_LIMIT]
         ∧ requests st = scene_requests ctx 1 "" ts).
Proof.
  destruct (scene_loop_terminates svc ctx scene_fuel loop_init loop_invariant_init)
    as (st & Hst & Hinv & Hrun); [vm_compute; lia|].
  exists st. split; [done|]. split; [|split; [done|split; [|split; [|split]]]].
  - intros fuel Hfuel. by eapply scene_loop_fuel_le.
  - unfold generate_episode_script. by rewrite Hst.
  - destruct Hinv as [Hlo Hup Hreq Hbr Hscr]. rewrite Hreq.
    destruct (broke st); [specialize (Hbr eq_refl)|]; unfold MAX_SCENES_PER_EPISODE in *; lia.
  - intros Hn Hc. destruct Hinv as [Hlo Hup Hreq Hbr Hscr].
    destruct (broke st) eqn:Hb; [specialize (Hbr eq_refl); lia|].
    destruct (Hscr eq_refl) as (scenes & Hlen & Hfull).
    rewrite Hc, bool_decide_eq_true_2 in Hfull by done. cbn in Hfull.
    exists scenes. split; [lia | done].
  - intros ts Hlen Hgen.
    destruct (proj2 (last_is_Some ts)) as [t Ht].
    { intros ->. cbn in Hlen. unfold MAX_SCENES_PER_EPISODE in Hlen. lia. }
    apply last_Some in Ht as [ts9 ->].
    rewrite length_app in Hlen. cbn in Hlen.
    rewrite scenes_generated_app in Hgen. apply andb_true_iff in Hgen as [Hgen9 Hgen10].
    assert (scene_fuel = (length ts9 + 1)%nat) as Hfuel.
    { unfold scene_fuel, MAX_SCENES_PER_EPISODE in *. lia. }
    rewrite Hfuel in Hst.
    rewrite (scene_loop_accepts svc ctx ts9 1 loop_init) in Hst; try done;
      [|cbn; unfold MAX_SCENES_PER_EPISODE in *; lia].
    cbn [scene_loop] in Hst.
    assert (loop_running (after_scenes ctx loop_init ts9) = true) as Hr.
    { apply loop_running_true. cbn. unfold MAX_SCENES_PER_EPISODE in *.
      split; [done|]. split; [lia|done]. }
    rewrite Hr in Hst.
    destruct (loop_body_accepted svc ctx (after_scenes ctx loop_init ts9) t [])
      as [Hbody _]; [exact Hgen10|].
    rewrite Hbody in Hst. cbn in Hst.
    rewrite bool_decide_eq_true_2 in Hst
      by (unfold MAX_SCENES_PER_EPISODE in *; lia).
    unfold loop_running in Hst. cbn in Hst.
    rewrite bool_decide_eq_false_2 in Hst
      by (unfold MAX_SCENES_PER_EPISODE in *; lia).
    cbn in Hst. injection Hst as <-. cbn. split; [done|].
    by rewrite scene_requests_app.
Qed.

(** C8.  Let the service answer scenes [1 .. n-1] with the texts [ts] and
    raise at scene [n].  Then the loop returns with the script [ts] followed
    by the error marker of scene [n]: the earlier scenes are all kept, in
    order.  The requests sent are those of scenes [1 .. n], each once and
    the failed one last: the call is not repeated and no later scene is
    asked for. *)
Theorem C8_scene_error_halts (svc : Services) (ctx : EpisodeContext)
    (ts : list string) :
  let n := 1 + Z.of_nat (length ts) in
  n ≤ MAX_SCENES_PER_EPISODE →
  scenes_generated svc ctx 1 "" ts = true →
  scene_completion svc (scene_request ctx n (rolling_summary "" ts)) = None →
  ∃ st,
    scene_loop scene_fuel svc ctx loop_init = Ok st
    ∧ broke st = true
    ∧ full_episode_script st = ts ++ [error_marker n]
    ∧ generate_episode_script svc ctx = Ok (join "

" (ts ++ [error_marker n]))
    ∧ requests st
      = scene_requests ctx 1 "" ts ++ [scene_request ctx n (rolling_summary "" ts)]
    ∧ sr_scene_number <$> requests st = seqZ 1 n.
Proof.
  intros n Hn Hgen Hfail.
  assert (∃ st, scene_loop (length ts + 1) svc ctx loop_init = Ok st
            ∧ broke st = true
            ∧ full_episode_script st = ts ++ [error_marker n]
            ∧ requests st = scene_requests ctx 1 "" ts
                ++ [scene_request ctx n (rolling_summary "" ts)])
    as (st & Hst & Hb & Hfull & Hreq).
  { rewrite (scene_loop_accepts svc ctx ts 1 loop_init); try done.
    cbn [scene_loop].
    assert (loop_running (after_scenes ctx loop_init ts) = true) as ->.
    { apply loop_running_true. cbn. split; [done|]. split; [lia|done]. }
    unfold loop_body, _generate_scene. cbn [after_scenes loop_init scene_number
      previous_scenes_summary full_episode_script requests app].
    fold n. rewrite Hfail. rewrite contains_app_l.
    eexists. split; [reflexivity|]. done. }
  assert (scene_loop scene_fuel svc ctx loop_init = Ok st) as Hst'.
  { eapply scene_loop_fuel_le; [|exact Hst].
    unfold scene_fuel, MAX_SCENES_PER_EPISODE in *. lia. }
  exists st. split; [done|split; [done|split; [done|split; [|split; [done|]]]]].
  - unfold generate_episode_script. rewrite Hst'. cbn. by rewrite Hfull.
  - rewrite Hreq, fmap_app, scene_requests_numbers. cbn.
    unfold n. rewrite (Z.add_comm 1), (seqZ_app 1 (Z.of_nat (length ts)) 1) by lia.
    by rewrite (Z.add_comm 1).
Qed.

Lemma C4_scene_cap_witness :
  let ts := (λ i, "INT. ROOM " +:+ str i) <$> seqZ 1 10 in
  Z.of_nat (length ts) = MAX_SCENES_PER_EPISODE
  ∧ scenes_generated endless_services sample_context 1 "" ts = true
  ∧ ∃ st, scene_loop scene_fuel endless_services sample_context loop_init = Ok st
      ∧ full_episode_script st = ts ++ [SCENE_LIMIT]
      ∧ length (requests st) = 10%nat.
Proof.
  intros ts. split; [reflexivity|]. split; [vm_compute; reflexivity|].
  destruct (C4_scene_cap endless_services sample_context)
    as (st & Hst & _ & _ & _ & _ & _ & Hts).
  destruct (Hts ts eq_refl) as [Hfull Hreq]; [vm_compute; reflexivity|].
  exists st. split; [exact Hst|]. split; [exact Hfull|].
  rewrite Hreq. apply scene_requests_length.
Defined.

Lemma C8_scene_error_halts_witness :
  let ts := ["INT. ROOM 1"; "INT. ROOM 2"] in
  1 + Z.of_nat (length ts) ≤ MAX_SCENES_PER_EPISODE
  ∧ scenes_generated failing_services sample_context 1 "" ts = true
  ∧ scene_completion failing_services
      (scene_request sample_context 3 (rolling_summary "" ts)) = None
  ∧ generate_episode_script failing_services sample_context
    = Ok "INT. ROOM 1

INT. ROOM 2

ERROR GENERATING SCENE 3: Generation stopped.".
Proof.
  intros ts. split; [vm_compute; discriminate|].
  split; [vm_compute; reflexivity|]. split; [reflexivity|].
  destruct (C8_scene_error_halts failing_services sample_context ts)
    as (st & _ & _ & _ & Hscript & _).
  - vm_compute; discriminate.
  - vm_compute; reflexivity.
  - reflexivity.
  - exact Hscript.
Defined.

(** ** Runs of the pipeline *)

Lemma generate_episode_main_path svc n p s c p' :
  generate_episode svc n p = Ok (Some s, c, p') →
  c ≠ CritiqueText "Generation failed, no critique available." →
  ∃ ep text,
    critique_episode svc s n (default "" (pe_summary ep)) (memory p) = Ok (s, text)
    ∧ c = CritiquePair s text
    ∧ memory p' = update_memory_from_script svc s n (memory p)
    ∧ get_episode_data n p' = Some {| script := s; critique := CritiquePair s text |}.
Proof.
  unfold generate_episode. destruct (story_plan p) as [plan|]; [|done].
  destruct (list_find _ _) as [[i ep]|]; [|done].
  destruct (assemble_context _ _ _ _) as [ctx| |]; cbn; [|done|done].
  destruct (generate_episode_script svc ctx) as [s'| |]; cbn; [|done|done].
  destruct (String.eqb s' "" || contains "Error generating script" s').
  { intros [= <- <- <-]. done. }
  destruct (critique_episode svc s' n _ (memory p)) as [[s1 text]| |] eqn:Ec;
    cbn; [|done|done].
  intros [= <- <- <-] _. exists ep, text.
  assert (s1 = s') as ->.
  { unfold critique_episode in Ec. destruct (get_context_summary _ _); cbn in Ec;
      [|done|done].
    destruct (critique_completion svc _); by injection Ec as <- <-. }
  split; [done|]. split; [done|]. split; [done|].
  unfold get_episode_data. cbn. apply lookup_insert_eq.
Qed.

(** The first generation of episode 1 in [planned_pipeline]. *)
Lemma sample_run_episode_1 :
  ∃ p', generate_episode sample_services 1 planned_pipeline
        = Ok (Some sample_script, CritiquePair sample_script "Looks good", p').
Proof.
  destruct (generate_episode sample_services 1 planned_pipeline)
    as [[[s c] p']| |] eqn:E; [|by vm_compute in E|by vm_compute in E].
  assert (match generate_episode sample_services 1 planned_pipeline with
          | Ok (s, c, _) => Some (s, c)
          | _ => None
          end = Some (Some sample_script, CritiquePair sample_script "Looks good"))
    as H by (vm_compute; reflexivity).
  rewrite E in H. injection H as -> ->. by exists p'.
Qed.

(** C5 at a run.  Episode 1 is generated for the planned pipeline by a
    service whose critique step answers ["Looks good"].  The second
    component returned, and the ["critique"] stored for the episode, is the
    pair of the script and that text, as [critique_episode] returns it: it
    is not the critique text.  The script is returned and stored, and a
    later [get_episode_data(1)] finds the entry. *)
Theorem C5_critique_is_a_pair_at_sample_run :
  ∃ p',
    generate_episode sample_services 1 planned_pipeline
    = Ok (Some sample_script, CritiquePair sample_script "Looks good", p')
    ∧ get_episode_data 1 p'
      = Some {| script := sample_script;
                critique := CritiquePair sample_script "Looks good" |}
    ∧ critique_episode sample_services sample_script 1 "The crash"
        (memory planned_pipeline) = Ok (sample_script, "Looks good")
    ∧ CritiquePair sample_script "Looks good" ≠ CritiqueText "Looks good".
Proof.
  destruct sample_run_episode_1 as (p' & E).
  exists p'. split; [done|].
  destruct (generate_episode_main_path _ _ _ _ _ _ E) as (ep & text & _ & Hc & _ & Hd);
    [done|].
  injection Hc as <-. split; [exact Hd|]. split; [vm_compute; reflexivity | done].
Qed.

(** C1 at a run.  After episode 1 was generated once, the bundle that
    [generate_episode(1)] assembles to generate it again holds a character
    state and a script chunk tagged with episode 1: [character_info] is the
    unfiltered [get_character_summaries], and [relevant_chunks] comes from a
    search with no episode filter.  Its [context_summary] alone stops at
    the episodes before 1.  Both scene requests of the second run carry
    that [character_info] and [relevant_chunks]. *)
Theorem C1_regeneration_bundle_holds_episode_1 :
  ∃ p' ctx,
    generate_episode sample_services 1 planned_pipeline
    = Ok (Some sample_script, CritiquePair sample_script "Looks good", p')
    ∧ memory p' = memory_after_episode_1
    ∧ assemble_context sample_services 1 "The crash" (memory p') = Ok ctx
    ∧ character_info ctx
      = "Ana: First appeared in Episode 0. Recent state: Episode 0: Description: a pilot. Motivation: home; Episode 1: hurt in the crash"
    ∧ contains "[From Episode 1, Chunk 0]" (relevant_chunks ctx) = true
    ∧ context_summary ctx
      = "CHARACTER CONTEXT:
Ana: Episode 0: Description: a pilot. Motivation: home

PLOT CONTEXT:
Plot: Episode 1 objective: The crash - Status as of Episode 0: planned
Plot: Episode 1 key point: Ana crashes - Status as of Episode 0: planned
Plot: Episode 2 objective: The walk - Status as of Episode 0: planned"
    ∧ {| se_episode := Some 1; se_change := "hurt in the crash" |}
        ∈ character_info_entries (memory p')
    ∧ {| page_content := sample_script; md_episode := Some 1;
         md_chunk_index := Some 0%nat; md_type := "script_chunk" |}
        ∈ relevant_documents sample_services "The crash" 5 (memory p')
    ∧ ¬ bundle_sources_before sample_services "The crash" (memory p') 1
    ∧ ∃ st, scene_loop scene_fuel sample_services ctx loop_init = Ok st
        ∧ length (requests st) = 2%nat
        ∧ Forall (λ r, sr_character_info r = character_info ctx
                       ∧ sr_relevant_chunks r = relevant_chunks ctx) (requests st).
Proof.
  destruct sample_run_episode_1 as (p' & E).
  destruct (generate_episode_main_path _ _ _ _ _ _ E) as (ep & text & _ & _ & Hm & _);
    [done|].
  change (memory p' = memory_after_episode_1) in Hm.
  exists p'. eexists. split; [exact E|]. split; [exact Hm|]. rewrite Hm.
  split; [vm_compute; reflexivity|].
  split; [reflexivity|]. split; [vm_compute; reflexivity|]. split; [reflexivity|].
  assert ({| se_episode := Some 1; se_change := "hurt in the crash" |}
            ∈ character_info_entries memory_after_episode_1) as Hentry.
  { vm_compute. apply list_elem_of_further, list_elem_of_here. }
  split; [exact Hentry|]. split; [|split].
  - vm_compute. apply list_elem_of_further, list_elem_of_here.
  - intros [Hchars _]. specialize (Hchars _ Hentry). by vm_compute in Hchars.
  - eexists. split; [vm_compute; reflexivity|]. split; [reflexivity|].
    repeat (constructor; [split; reflexivity|]). constructor.
Qed.

(** * Further properties of the code *)

(** ** [update_character_state] *)

Lemma dict_set_set {V} k (v v' : V) d : dict_set k v' (dict_set k v d) = dict_set k v' d.
Proof.
  induction d as [|[k0 v0] d IH]; cbn.
  - by rewrite String.eqb_refl.
  - destruct (String.eqb k k0) eqn:E; cbn.
    + by rewrite String.eqb_refl.
    + by rewrite E, IH.
Qed.

Lemma dict_mem_get {V} k (d : dict V) : dict_mem k d = bool_decide (is_Some (dict_get k d)).
Proof.
  unfold dict_mem. destruct (dict_get k d).
  - by rewrite bool_decide_eq_true_2.
  - rewrite bool_decide_eq_false_2; [done|]. by intros [? ?].
Qed.

Lemma update_character_state_characters name change ep m :
  characters (update_character_state name change ep m)
  = dict_set name (with_state (dict_get name (characters m)) name change ep)
             (characters m).
Proof.
  unfold update_character_state, dict_mem. cbn.
  destruct (dict_get name (characters m)) as [c|] eqn:E.
  - by rewrite E.
  - by rewrite dict_get_set_eq, dict_set_set.
Qed.

(** X1.  [update_character_state] on a name not in the table adds the
    character at the end of the table with [first_appearance] the episode
    given and a one-entry history.  On a known name it appends the entry
    and keeps the name, the first appearance, the earlier entries and the
    order of the table.  No other character, and nothing of the plot table
    or the counter, changes. *)
Theorem X1_update_character_state (name change : string) (ep : option Z)
    (m : MemoryManager) :
  let m' := update_character_state name change ep m in
  let entry := {| se_episode := ep; se_change := change |} in
  (dict_get name (characters m) = None →
     characters m'
     = characters m ++ [(name, {| c_name := name; first_appearance := ep;
                                  state_history := [entry] |})])
  ∧ (∀ c, dict_get name (characters m) = Some c →
       dict_get name (characters m')
       = Some {| c_name := c_name c; first_appearance := first_appearance c;
                 state_history := state_history c ++ [entry] |}
       ∧ keys (characters m') = keys (characters m))
  ∧ (∀ k, k ≠ name → dict_get k (characters m') = dict_get k (characters m))
  ∧ plot_points m' = plot_points m
  ∧ plot_counter m' = plot_counter m.
Proof.
  intros m' entry. unfold m'. rewrite update_character_state_characters.
  split; [|split; [|split; [|done]]].
  - intros E. rewrite E. by apply dict_set_new.
  - intros c E. rewrite E. split; [apply dict_get_set_eq|].
    apply keys_dict_set_old. by rewrite E.
  - intros k Hk. by apply dict_get_set_ne.
Qed.

Lemma X1_update_character_state_witness :
  dict_get "Cy" (characters sample_store) = None
  ∧ keys (characters (update_character_state "Cy" "arrives" (Some 4) sample_store))
    = ["Ana"; "Bo"; "Cy"]
  ∧ dict_get "Bo" (characters sample_store)
    = Some {| c_name := "Bo"; first_appearance := Some 2;
              state_history := [{| se_episode := Some 2; se_change := "joins the crew" |}] |}
  ∧ dict_get "Bo" (characters (update_character_state "Bo" "leaves" (Some 1) sample_store))
    = Some {| c_name := "Bo"; first_appearance := Some 2;
              state_history := [{| se_episode := Some 2; se_change := "joins the crew" |};
                                {| se_episode := Some 1; se_change := "leaves" |}] |}.
Proof.
  destruct (X1_update_character_state "Cy" "arrives" (Some 4) sample_store)
    as (Hnew & _).
  destruct (X1_update_character_state "Bo" "leaves" (Some 1) sample_store)
    as (_ & Hold & _).
  split; [reflexivity|]. split.
  - rewrite Hnew by reflexivity. reflexivity.
  - split; [reflexivity|]. apply (Hold _ eq_refl).
Defined.

(** ** Ids in use, and files that were lost *)

Lemma ids_issued_empty vs d : ids_issued (empty_tables vs d).
Proof. intros k p H. by apply elem_of_nil in H. Qed.

Lemma ids_issued_run_call m c : ids_issued m → ids_issued (run_call m c).
Proof.
  intros Hm. destruct c as [nm s e|s st e|i st e]; cbn.
  - exact Hm.
  - intros k p Hin. cbn in Hin. apply elem_of_dict_set in Hin as [[= -> ->]|Hin].
    + exists (plot_counter m + 1). split; [done | cbn; lia].
    + destruct (Hm k p Hin) as (j & -> & Hj). exists j. split; [done | cbn; lia].
  - unfold update_plot_status.
    destruct (dict_get (str i) (plot_points m)) as [q|] eqn:Eq; cbn; [|exact Hm].
    intros k p Hin. cbn in Hin. apply elem_of_dict_set in Hin as [[= -> ->]|Hin].
    + apply dict_get_Some_elem in Eq. destruct (Hm _ _ Eq) as (j & Hj & Hle). eauto.
    + exact (Hm k p Hin).
Qed.

Lemma ids_issued_run_calls cs : ∀ m, ids_issued m → ids_issued (run_calls m cs).
Proof.
  induction cs as [|c cs IH]; intros m Hm; [done|].
  cbn. apply IH. by apply ids_issued_run_call.
Qed.

Lemma ids_issued_next_free m :
  ids_issued m → dict_get (str (plot_counter m + 1)) (plot_points m) = None.
Proof.
  intros Hm. destruct (dict_get _ _) as [p|] eqn:E; [|done].
  apply dict_get_Some_elem in E. destruct (Hm _ _ E) as (j & Hj & Hle).
  apply str_inj in Hj. lia.
Qed.

(** X2.  In a store built from empty tables by calls of the mutators,
    every key of the plot table is an id already issued, and
    [add_plot_point] appends its plot point at the end of the table under
    a key that was not in use: no plot point is replaced. *)
Theorem X2_add_plot_point_appends (vs : option (list Document)) (d : Disk)
    (cs : list StoreCall) (summary_ status_ : string) (ep : option Z) :
  let m := run_calls (empty_tables vs d) cs in
  ids_issued m
  ∧ dict_get (str (plot_counter m + 1)) (plot_points m) = None
  ∧ plot_points (add_plot_point summary_ status_ ep m).2
    = plot_points m
      ++ [(str (plot_counter m + 1),
           new_plot_point (plot_counter m + 1) (summary_, status_, ep))].
Proof.
  intros m.
  assert (ids_issued m) as Hm by apply ids_issued_run_calls, ids_issued_empty.
  split; [done|]. split; [by apply ids_issued_next_free|].
  cbn. apply dict_set_new. by apply ids_issued_next_free.
Qed.



(** ** Durability *)






(** ** The operations of the refiner and the planner as calls of the mutators *)

Lemma run_calls_app m cs1 cs2 : run_calls m (cs1 ++ cs2) = run_calls (run_calls m cs1) cs2.
Proof. unfold run_calls. apply foldl_app. Qed.

Lemma foldl_run_calls {X} (f : X → StoreCall) (l : list X) : ∀ m,
  foldl (λ m x, run_call m (f x)) m l = run_calls m (f <$> l).
Proof. induction l as [|x l IH]; intros m; [done|]. cbn. apply IH. Qed.

Lemma apply_extracted_info_calls info n m :
  apply_extracted_info info n m = run_calls m (extracted_calls info n).
Proof.
  unfold apply_extracted_info, extracted_calls. rewrite !run_calls_app.
  rewrite <- !foldl_run_calls. cbn [run_call]. f_equal. f_equal.
  generalize (foldl (λ m x, update_character_state x.1 x.2 (Some n) m) m
                (character_updates info)).
  induction (plot_updates info) as [|[[i|t|] st] l IH]; intros m0; cbn; [done|..];
    apply IH.
Qed.

Lemma store_episode_plan_calls m episode :
  store_episode_plan m episode
  = run_calls m
      (CallAddPlotPoint
         ("Episode " +:+ fmt (pe_episode episode) +:+ " objective: "
          +:+ fmt_str (pe_summary episode)) "planned" (Some 0)
       :: ((λ point,
              CallAddPlotPoint
                ("Episode " +:+ fmt (pe_episode episode) +:+ " key point: " +:+ point)
                "planned" (Some 0)) <$> pe_key_points episode)).
Proof.
  unfold store_episode_plan. cbn [run_calls foldl run_call].
  by rewrite <- foldl_run_calls.
Qed.

Lemma store_plan_calls svc plan m :
  (store_plan svc (Some plan) m).2
  = (add_document_chunks svc (overview_text plan) "story_overview" 0
       (run_calls m (plan_calls plan))).2.
Proof.
  cbn [store_plan snd]. f_equal. f_equal. unfold plan_calls.
  rewrite run_calls_app, <- foldl_run_calls. cbn [run_call].
  generalize (foldl (λ m x, update_character_state (default "Unknown" (pc_name x))
                ("Description: " +:+ default "" (pc_description x)
                 +:+ ". Motivation: " +:+ default "" (pc_motivation x)) (Some 0) m)
                m (sp_characters plan)).
  induction (master_outline plan) as [|ep l IH]; intros m0; [done|].
  cbn [foldl mbind list_bind]. rewrite run_calls_app, IH.
  by rewrite store_episode_plan_calls.
Qed.

(** ** Stores whose episodes are all numbers *)






Lemma add_document_chunks_tables svc text type_ ep m :
  characters (add_document_chunks svc text type_ ep m).2 = characters m
  ∧ plot_points (add_document_chunks svc text type_ ep m).2 = plot_points m
  ∧ plot_counter (add_document_chunks svc text type_ ep m).2 = plot_counter m.
Proof.
  unfold add_document_chunks. destruct (vector_store m); [|done].
  by destruct (embeddings_ok svc).
Qed.

Lemma add_chunks_counter svc chunks z m :
  plot_counter (add_chunks_to_vector_store svc chunks z m).2 = plot_counter m.
Proof.
  unfold add_chunks_to_vector_store. destruct (embeddings_ok svc); [|done].
  destruct (filter _ chunks); by destruct (vector_store m).
Qed.












(** ** Facts of later episodes do not reach the summary of an episode *)

Lemma character_passes_collect n (chars : list (string * Character)) :
  collect_lines (character_pass n <$> chars)
  = (cs ← traverse (λ kv : string * Character, s ← last_states n kv.2; Ok (kv.1, s))
                   chars;
     Ok (omap character_line cs) : result (list string)).
Proof.
  induction chars as [|[k c] chars IH]; [done|]. cbn. rewrite IH.
  unfold character_pass. cbn. destruct (last_states n c) as [s| |]; cbn; [|done|done].
  destruct (traverse _ chars) as [cs| |]; cbn; [|done|done].
  by destruct (character_line (k, s)).
Qed.

Lemma plot_passes_collect n (plots : list (string * PlotPoint)) :
  collect_lines (plot_pass n <$> plots)
  = (ps ← traverse (λ kv : string * PlotPoint, s ← latest_status n kv.2; Ok (kv.2, s))
                   plots;
     Ok (omap plot_line ps) : result (list string)).
Proof.
  induction plots as [|[k p] plots IH]; [done|]. cbn. rewrite IH.
  unfold plot_pass. cbn. destruct (latest_status n p) as [s| |]; cbn; [|done|done].
  destruct (traverse _ plots) as [ps| |]; cbn; [|done|done].
  by destruct (plot_line (p, s)).
Qed.

Lemma get_context_summary_passes m n :
  get_context_summary m n
  = (character_summary ← collect_lines (character_pass n <$> characters m);
     plot_summary ← collect_lines (plot_pass n <$> plot_points m);
     Ok (combine_summaries character_summary plot_summary)).
Proof.
  rewrite character_passes_collect, plot_passes_collect.
  unfold get_context_summary, shown_states, shown_statuses.
  destruct (traverse _ (characters m)) as [cs| |]; cbn; [|done|done].
  by destruct (traverse _ (plot_points m)) as [ps| |].
Qed.

Lemma collect_lines_snoc_None passes :
  collect_lines (passes ++ [Ok None]) = collect_lines passes.
Proof.
  induction passes as [|pass passes IH]; [done|]. cbn. rewrite IH.
  destruct pass as [line| |]; cbn; [|done|done].
  by destruct (collect_lines passes).
Qed.

Lemma fmap_dict_set_same {V B} (f : string * V → B) k v v' d :
  dict_get k d = Some v → f (k, v') = f (k, v) → f <$> dict_set k v' d = f <$> d.
Proof.
  intros Hget Hf. induction d as [|[k0 v0] d IH]; [done|]. cbn in *.
  destruct (String.eqb k k0) eqn:E.
  - apply String.eqb_eq in E. subst k0. injection Hget as ->. cbn. by rewrite Hf.
  - cbn. by rewrite IH.
Qed.

Lemma filterM_snoc_false {A} (p : A → result bool) l x :
  p x = Ok false → filterM p (l ++ [x]) = filterM p l.
Proof.
  intros Hx. induction l as [|a l IH]; cbn.
  - by rewrite Hx.
  - by rewrite IH.
Qed.

Lemma lt_not_before n z : n ≤ z → lt (Some z) n = Ok false.
Proof. intros H. cbn. by rewrite bool_decide_eq_false_2 by lia. Qed.

Lemma character_pass_with_state n name c change z :
  n ≤ z →
  character_pass n (name, with_state (Some c) name change (Some z))
  = character_pass n (name, c).
Proof.
  intros Hz. unfold character_pass, last_states, relevant_history. cbn.
  by rewrite filterM_snoc_false by (by apply lt_not_before).
Qed.

Lemma character_pass_new n name change z :
  n ≤ z → character_pass n (name, with_state None name change (Some z)) = Ok None.
Proof.
  intros Hz. unfold character_pass, last_states. cbn.
  by rewrite bool_decide_eq_false_2 by lia.
Qed.

Lemma plot_pass_with_status n k p st z :
  n ≤ z → plot_pass n (k, with_status p st (Some z)) = plot_pass n (k, p).
Proof.
  intros Hz. unfold plot_pass, latest_status, relevant_status. cbn.
  by rewrite filterM_snoc_false by (by apply lt_not_before).
Qed.

Lemma plot_pass_new n k i call z :
  call.2 = Some z → n ≤ z → plot_pass n (k, new_plot_point i call) = Ok None.
Proof.
  intros Hc Hz. unfold plot_pass, latest_status. cbn. rewrite Hc. cbn.
  by rewrite bool_decide_eq_false_2 by lia.
Qed.

Lemma get_context_summary_run_call m c n :
  ids_issued m → call_not_before n c →
  get_context_summary (run_call m c) n = get_context_summary m n.
Proof.
  intros Hids Hc. rewrite !get_context_summary_passes.
  destruct c as [nm s e|s st e|i st e]; cbn in Hc; destruct Hc as (z & -> & Hz).
  - cbn [run_call]. rewrite update_character_state_characters.
    change (plot_points (update_character_state nm s (Some z) m)) with (plot_points m).
    destruct (dict_get nm (characters m)) as [c|] eqn:E.
    + rewrite (fmap_dict_set_same _ _ c); [done|done|].
      by apply character_pass_with_state.
    + rewrite dict_set_new by done. rewrite fmap_app. cbn [fmap list_fmap].
      rewrite character_pass_new by done. by rewrite collect_lines_snoc_None.
  - cbn [run_call add_plot_point snd _save_persistent_data characters plot_points].
    rewrite dict_set_new by (by apply ids_issued_next_free).
    rewrite fmap_app. cbn [fmap list_fmap].
    change {| id := plot_counter m + 1; summary := s; status := st;
              episode_added := Some z;
              status_history := [{| st_episode := Some z; st_status := st |}] |}
      with (new_plot_point (plot_counter m + 1) (s, st, Some z)).
    rewrite (plot_pass_new n _ _ _ z) by done.
    by rewrite collect_lines_snoc_None.
  - cbn [run_call]. unfold update_plot_status.
    destruct (dict_get (str i) (plot_points m)) as [q|] eqn:Eq; [|done].
    cbn [snd _save_persistent_data characters plot_points].
    change {| id := id q; summary := summary q; status := st;
              episode_added := episode_added q;
              status_history := status_history q
                ++ [{| st_episode := Some z; st_status := st |}] |}
      with (with_status q st (Some z)).
    rewrite (fmap_dict_set_same _ _ q); [done|done|].
    by apply plot_pass_with_status.
Qed.

Lemma get_context_summary_run_calls m cs n :
  ids_issued m → Forall (call_not_before n) cs →
  get_context_summary (run_calls m cs) n = get_context_summary m n.
Proof.
  revert m. induction cs as [|c cs IH]; intros m Hids Hcs; [done|].
  inversion Hcs as [|? ? Hc Hcs']; subst. cbn [run_calls foldl].
  change (get_context_summary (run_calls (run_call m c) cs) n = get_context_summary m n).
  rewrite IH; [|by apply ids_issued_run_call|done].
  by apply get_context_summary_run_call.
Qed.

(** X6.  The causal boundary as non-interference.  In a store whose plot
    keys are ids already issued, calls of the mutators for episodes [>= n]
    leave [get_context_summary(n)] as it was, text or exception: what is
    recorded for an episode and for later ones never shows in its
    summary. *)
Theorem X6_later_facts_do_not_interfere (m : MemoryManager) (cs : list StoreCall)
    (n : Z) :
  ids_issued m →
  Forall (call_not_before n) cs →
  get_context_summary (run_calls m cs) n = get_context_summary m n.
Proof. apply get_context_summary_run_calls. Qed.

Lemma X6_later_facts_do_not_interfere_witness :
  ids_issued sample_store
  ∧ Forall (call_not_before 2)
      [CallUpdateCharacter "Ana" "lands" (Some 2);
       CallAddPlotPoint "A storm" "introduced" (Some 3);
       CallUpdatePlotStatus 1 "abandoned" (Some 2)]
  ∧ get_context_summary
      (run_calls sample_store
         [CallUpdateCharacter "Ana" "lands" (Some 2);
          CallAddPlotPoint "A storm" "introduced" (Some 3);
          CallUpdatePlotStatus 1 "abandoned" (Some 2)]) 2
    = get_context_summary sample_store 2.
Proof.
  assert (ids_issued sample_store) as Hids
    by apply ids_issued_run_calls, ids_issued_empty.
  assert (Forall (call_not_before 2)
            [CallUpdateCharacter "Ana" "lands" (Some 2);
             CallAddPlotPoint "A storm" "introduced" (Some 3);
             CallUpdatePlotStatus 1 "abandoned" (Some 2)]) as Hcs.
  { repeat constructor; cbn; eexists; (split; [reflexivity | lia]). }
  split; [exact Hids|]. split; [exact Hcs|].
  exact (X6_later_facts_do_not_interfere _ _ 2 Hids Hcs).
Defined.

Lemma get_context_summary_tables m m' n :
  characters m' = characters m → plot_points m' = plot_points m →
  get_context_summary m' n = get_context_summary m n.
Proof.
  intros Hc Hp. unfold get_context_summary, shown_states, shown_statuses.
  by rewrite Hc, Hp.
Qed.

Lemma extracted_calls_not_before info n n' :
  n' ≤ n → Forall (call_not_before n') (extracted_calls info n).
Proof.
  intros Hn. unfold extracted_calls. rewrite !Forall_app. split; [|split].
  - apply Forall_fmap, Forall_true. intros ?. cbn. eauto.
  - apply Forall_forall. intros c Hc. apply list_elem_of_omap in Hc as ([r st] & _ & Hc).
    destruct r; cbn in Hc; try done. injection Hc as <-. cbn. eauto.
  - apply Forall_fmap, Forall_true. intros ?. cbn. eauto.
Qed.

Lemma update_memory_tables svc script_text n m :
  ∃ cs, (cs = [] ∨ ∃ info, cs = extracted_calls info n)
    ∧ characters (update_memory_from_script svc script_text n m)
      = characters (run_calls m cs)
    ∧ plot_points (update_memory_from_script svc script_text n m)
      = plot_points (run_calls m cs)
    ∧ plot_counter (update_memory_from_script svc script_text n m)
      = plot_counter (run_calls m cs).
Proof.
  unfold update_memory_from_script.
  set (m1 := match extraction_completion svc _ with Some _ => _ | None => _ end).
  destruct (add_chunks_tables svc (split_text svc script_text) n m1) as [Hp Hc].
  pose proof (add_chunks_counter svc (split_text svc script_text) n m1) as Hn.
  rewrite Hp, Hc, Hn. unfold m1.
  destruct (extraction_completion svc _) as [info|].
  - exists (extracted_calls info n). rewrite apply_extracted_info_calls.
    split; [right; by exists info | done].
  - exists []. split; [by left | done].
Qed.

(** X7.  Generating episode [n] does not change the context summary of
    episode [n] or of an earlier one: with plot keys that are ids already
    issued, after [generate_episode(n)] the call [get_context_summary(n')]
    gives for every [n' <= n] what it gave before, so a regeneration of the
    episode is given the same [context_summary] as the first generation. *)
Theorem X7_generation_keeps_earlier_summaries (svc : Services) (n n' : Z)
    (p : StoryPipeline) (r : option string * CritiqueValue * StoryPipeline) :
  ids_issued (memory p) →
  generate_episode svc n p = Ok r →
  n' ≤ n →
  get_context_summary (memory r.2) n' = get_context_summary (memory p) n'.
Proof.
  intros Hids Hgen Hn.
  assert (memory r.2 = memory p
          ∨ ∃ s, memory r.2 = update_memory_from_script svc s n (memory p)) as [->|[s ->]].
  { unfold generate_episode in Hgen. destruct (story_plan p) as [plan|];
      [|injection Hgen as <-; by left].
    destruct (list_find _ _) as [[i ep]|]; [|injection Hgen as <-; by left].
    destruct (assemble_context _ _ _ _) as [ctx| |]; cbn in Hgen; [|done|done].
    destruct (generate_episode_script svc ctx) as [s| |]; cbn in Hgen; [|done|done].
    destruct (String.eqb s "" || contains "Error generating script" s);
      [injection Hgen as <-; by left|].
    destruct (critique_episode _ _ _ _ _) as [cr| |]; cbn in Hgen; [|done|done].
    injection Hgen as <-. right. by exists s. }
  { done. }
  destruct (update_memory_tables svc s n (memory p)) as (cs & Hcs & Hc & Hp & _).
  rewrite (get_context_summary_tables _ _ _ Hc Hp).
  apply get_context_summary_run_calls; [done|].
  destruct Hcs as [->|[info ->]]; [constructor | by apply extracted_calls_not_before].
Qed.

Lemma ids_issued_tables m m' :
  plot_points m' = plot_points m → plot_counter m' = plot_counter m →
  ids_issued m → ids_issued m'.
Proof. unfold ids_issued. by intros -> ->. Qed.

Lemma ids_issued_store_plan svc plan m :
  ids_issued m → ids_issued (store_plan svc plan m).2.
Proof.
  intros Hm. destruct plan as [plan|]; [|done]. rewrite store_plan_calls.
  destruct (add_document_chunks_tables svc (overview_text plan) "story_overview" 0
              (run_calls m (plan_calls plan))) as (_ & Hp & Hn).
  eapply ids_issued_tables; [exact Hp | exact Hn|]. by apply ids_issued_run_calls.
Qed.

Lemma ids_issued_update_memory svc script_text n m :
  ids_issued m → ids_issued (update_memory_from_script svc script_text n m).
Proof.
  intros Hm.
  destruct (update_memory_tables svc script_text n m) as (cs & _ & _ & Hp & Hn).
  eapply ids_issued_tables; [exact Hp | exact Hn|]. by apply ids_issued_run_calls.
Qed.

Lemma ids_issued_plan_story svc user_input p :
  ids_issued (memory p) → ids_issued (memory (plan_story svc user_input p).2).
Proof.
  intros Hm. unfold plan_story. destruct (String.eqb user_input ""); [done|].
  destruct (plan_completion svc user_input) as [plan|]; [|done].
  pose proof (ids_issued_store_plan svc (Some plan) (memory p) Hm) as H.
  cbn [memory]. by destruct (store_plan svc (Some plan) (memory p)).
Qed.

Lemma X7_generation_keeps_earlier_summaries_witness :
  ids_issued (memory planned_pipeline)
  ∧ ∃ r, generate_episode sample_services 1 planned_pipeline = Ok r
      ∧ get_context_summary (memory r.2) 1
        = get_context_summary (memory planned_pipeline) 1.
Proof.
  assert (ids_issued (memory planned_pipeline)) as H.
  { unfold planned_pipeline. apply ids_issued_plan_story, ids_issued_empty. }
  split; [exact H|].
  destruct sample_run_episode_1 as (p' & E).
  eexists. split; [exact E|].
  apply (X7_generation_keeps_earlier_summaries sample_services 1 1 planned_pipeline _ H E).
  lia.
Defined.

(** ** Histories only grow *)

Lemma history_kept_refl m : history_kept m m.
Proof.
  split; [|split; [|lia]].
  - intros k c H. exists c. by repeat split.
  - intros k p H. exists p. by repeat split.
Qed.

Lemma history_kept_trans m1 m2 m3 :
  history_kept m1 m2 → history_kept m2 m3 → history_kept m1 m3.
Proof.
  intros (Hc1 & Hp1 & Hn1) (Hc2 & Hp2 & Hn2). split; [|split; [|lia]].
  - intros k c H. destruct (Hc1 k c H) as (c' & H' & Ha & Hb & Hd).
    destruct (Hc2 k c' H') as (c'' & H'' & Ha' & Hb' & Hd').
    exists c''. split; [done|]. split; [congruence|]. split; [congruence|].
    by etrans.
  - intros k p H. destruct (Hp1 k p H) as (p' & H' & Ha & Hb & Hd & He).
    destruct (Hp2 k p' H') as (p'' & H'' & Ha' & Hb' & Hd' & He').
    exists p''. split; [done|]. split; [congruence|]. split; [congruence|].
    split; [congruence|]. by etrans.
Qed.

Lemma history_kept_run_call m c : ids_issued m → history_kept m (run_call m c).
Proof.
  intros Hids. destruct c as [nm s e|s st e|i st e].
  - cbn [run_call]. split; [|split; [|cbn; lia]].
    + intros k c H. rewrite update_character_state_characters.
      destruct (decide (k = nm)) as [->|Hne].
      * rewrite H, dict_get_set_eq. eexists. split; [done|]. cbn.
        split; [done|]. split; [done|]. by apply prefix_app_r.
      * rewrite dict_get_set_ne by done. exists c. by repeat split.
    + intros k p H. exists p. by repeat split.
  - cbn [run_call]. split; [|split; [|cbn; lia]].
    + intros k c H. exists c. by repeat split.
    + intros k p H. exists p. cbn. split; [|by repeat split].
      rewrite dict_get_set_ne; [done|]. intros <-.
      rewrite (ids_issued_next_free m Hids) in H. done.
  - cbn [run_call]. unfold update_plot_status.
    destruct (dict_get (str i) (plot_points m)) as [q|] eqn:Eq; cbn [snd];
      [|apply history_kept_refl].
    split; [|split; [|cbn; lia]].
    + intros k c H. exists c. by repeat split.
    + intros k p H. cbn. destruct (decide (k = str i)) as [->|Hne].
      * rewrite dict_get_set_eq. rewrite Eq in H. injection H as ->.
        eexists. split; [done|]. cbn. split; [done|]. split; [done|].
        split; [done|]. by apply prefix_app_r.
      * rewrite dict_get_set_ne by done. exists p. by repeat split.
Qed.

Lemma history_kept_run_calls cs : ∀ m, ids_issued m → history_kept m (run_calls m cs).
Proof.
  induction cs as [|c cs IH]; intros m Hm; [apply history_kept_refl|].
  cbn [run_calls foldl]. eapply history_kept_trans.
  - by apply history_kept_run_call.
  - apply IH. by apply ids_issued_run_call.
Qed.

Lemma history_kept_tables m m1 m2 :
  characters m2 = characters m1 → plot_points m2 = plot_points m1 →
  plot_counter m2 = plot_counter m1 →
  history_kept m m1 → history_kept m m2.
Proof. unfold history_kept. by intros -> -> ->. Qed.

(** X8.  Nothing recorded is deleted or rewritten.  In a store whose plot
    keys are ids already issued, after any calls of the mutators, after
    [store_plan] and after [update_memory_from_script], every character
    and plot point that was in the tables is still there under its key,
    with its name or id, summary, first appearance or [episode_added]
    unchanged, and its history is the old history followed by what was
    appended; the counter never decreases. *)
Theorem X8_histories_only_grow (m : MemoryManager) :
  ids_issued m →
  (∀ cs, history_kept m (run_calls m cs))
  ∧ (∀ svc plan, history_kept m (store_plan svc plan m).2)
  ∧ (∀ svc script_text n, history_kept m (update_memory_from_script svc script_text n m)).
Proof.
  intros Hids. split; [|split].
  - intros cs. by apply history_kept_run_calls.
  - intros svc [plan|]; [|apply history_kept_refl]. rewrite store_plan_calls.
    destruct (add_document_chunks_tables svc (overview_text plan) "story_overview" 0
                (run_calls m (plan_calls plan))) as (Hc & Hp & Hn).
    eapply history_kept_tables; [exact Hc | exact Hp | exact Hn|].
    by apply history_kept_run_calls.
  - intros svc s n.
    destruct (update_memory_tables svc s n m) as (cs & _ & Hc & Hp & Hn).
    eapply history_kept_tables; [exact Hc | exact Hp | exact Hn|].
    by apply history_kept_run_calls.
Qed.

Lemma X8_histories_only_grow_witness :
  ids_issued sample_store
  ∧ history_kept sample_store
      (run_calls sample_store
         [CallUpdatePlotStatus 1 "abandoned" (Some 2);
          CallAddPlotPoint "A storm" "introduced" None;
          CallUpdateCharacter "Ana" "lands" (Some 0)]).
Proof.
  assert (ids_issued sample_store) as Hids
    by apply ids_issued_run_calls, ids_issued_empty.
  split; [exact Hids|].
  destruct (X8_histories_only_grow sample_store Hids) as [H _]. apply H.
Defined.

(** ** More on the scene loop *)

Lemma scene_loop_preserves (P : LoopState → Prop) svc ctx :
  (∀ st, P st → loop_running st = true → P (loop_body svc ctx st)) →
  ∀ fuel st st', P st → scene_loop fuel svc ctx st = Ok st' → P st'.
Proof.
  intros Hbody. induction fuel as [|fuel IH]; intros st st' Hst; cbn.
  - destruct (loop_running st); [done|]. by intros [= <-].
  - destruct (loop_running st) eqn:Hrun; [|by intros [= <-]].
    apply IH. by apply Hbody.
Qed.

Lemma scene_loop_returns svc ctx :
  ∃ st, scene_loop scene_fuel svc ctx loop_init = Ok st
    ∧ loop_invariant st ∧ loop_running st = false.
Proof. apply scene_loop_terminates; [apply loop_invariant_init | vm_compute; lia]. Qed.

(** X9.  When the service ends the episode at scene [n <= 10], after the
    scenes [ts], the script is [ts] followed by that scene and nothing
    else: no limit annotation is added, also when [n] is the last scene
    allowed.  Exactly [n] requests were sent. *)
Theorem X9_end_marker_ends_the_episode (svc : Services) (ctx : EpisodeContext)
    (ts : list string) (content : string) :
  let n := 1 + Z.of_nat (length ts) in
  n ≤ MAX_SCENES_PER_EPISODE →
  scenes_generated svc ctx 1 "" ts = true →
  scene_completion svc (scene_request ctx n (rolling_summary "" ts)) = Some content →
  endswith (strip content) EPISODE_END = true →
  contains SCENE_ERROR (strip content) = false →
  generate_episode_script svc ctx = Ok (join "

" (ts ++ [strip content]))
  ∧ ∃ st, scene_loop scene_fuel svc ctx loop_init = Ok st
      ∧ full_episode_script st = ts ++ [strip content]
      ∧ episode_complete st = true ∧ broke st = false
      ∧ length (requests st) = S (length ts).
Proof.
  intros n Hn Hgen Hreply Hend Herr.
  assert (scene_loop (length ts + 1) svc ctx loop_init
          = Ok {| full_episode_script := ts ++ [strip content];
                  scene_number := n + 1;
                  previous_scenes_summary := rolling_summary "" ts +:+ "

" +:+ strip content;
                  episode_complete := true;
                  broke := false;
                  requests := scene_requests ctx 1 "" ts
                    ++ [scene_request ctx n (rolling_summary "" ts)] |}) as Hst.
  { rewrite (scene_loop_accepts svc ctx ts 1 loop_init); try done.
    cbn [scene_loop].
    assert (loop_running (after_scenes ctx loop_init ts) = true) as ->.
    { apply loop_running_true. cbn. split; [done|]. split; [lia|done]. }
    unfold loop_body, _generate_scene. cbn [after_scenes loop_init scene_number
      previous_scenes_summary full_episode_script requests app].
    fold n. rewrite Hreply, Herr, Hend. cbn [negb]. rewrite andb_false_r.
    unfold loop_running. cbn. by rewrite andb_false_r. }
  apply (scene_loop_fuel_le _ _ _ scene_fuel) in Hst;
    [|unfold scene_fuel, MAX_SCENES_PER_EPISODE in *; lia].
  split.
  - unfold generate_episode_script. by rewrite Hst.
  - eexists. split; [exact Hst|]. cbn. split; [done|]. split; [done|]. split; [done|].
    rewrite length_app, scene_requests_length. cbn. lia.
Qed.

Lemma X9_end_marker_ends_the_episode_witness :
  generate_episode_script sample_services sample_context = Ok sample_script.
Proof.
  refine (proj1 (X9_end_marker_ends_the_episode sample_services sample_context
                   ["INT. COCKPIT - DAY"] "EXT. DESERT - DAY
# EPISODE END" _ _ _ _ _)).
  - vm_compute. discriminate.
  - vm_compute. reflexivity.
  - reflexivity.
  - vm_compute. reflexivity.
  - vm_compute. reflexivity.
Defined.

(** X10.  The loop tells a failed call from a scene by the text
    ["Error generating Scene"].  A reply of the service that holds this
    text is taken for a failure: the reply is not put in the script, the
    error marker of the scene is, and the loop stops, whether or not the
    reply ends the episode. *)
Theorem X10_reply_with_error_text_is_dropped (svc : Services) (ctx : EpisodeContext)
    (ts : list string) (content : string) :
  let n := 1 + Z.of_nat (length ts) in
  n ≤ MAX_SCENES_PER_EPISODE →
  scenes_generated svc ctx 1 "" ts = true →
  scene_completion svc (scene_request ctx n (rolling_summary "" ts)) = Some content →
  contains SCENE_ERROR (strip content) = true →
  generate_episode_script svc ctx = Ok (join "

" (ts ++ [error_marker n]))
  ∧ ∃ st, scene_loop scene_fuel svc ctx loop_init = Ok st
      ∧ full_episode_script st = ts ++ [error_marker n]
      ∧ broke st = true
      ∧ length (requests st) = S (length ts).
Proof.
  intros n Hn Hgen Hreply Herr.
  assert (scene_loop (length ts + 1) svc ctx loop_init
          = Ok {| full_episode_script := ts ++ [error_marker n];
                  scene_number := n;
                  previous_scenes_summary := rolling_summary "" ts;
                  episode_complete := endswith (strip content) EPISODE_END;
                  broke := true;
                  requests := scene_requests ctx 1 "" ts
                    ++ [scene_request ctx n (rolling_summary "" ts)] |}) as Hst.
  { rewrite (scene_loop_accepts svc ctx ts 1 loop_init); try done.
    cbn [scene_loop].
    assert (loop_running (after_scenes ctx loop_init ts) = true) as ->.
    { apply loop_running_true. cbn. split; [done|]. split; [lia|done]. }
    unfold loop_body, _generate_scene. cbn [after_scenes loop_init scene_number
      previous_scenes_summary full_episode_script requests app].
    fold n. rewrite Hreply, Herr. done. }
  apply (scene_loop_fuel_le _ _ _ scene_fuel) in Hst;
    [|unfold scene_fuel, MAX_SCENES_PER_EPISODE in *; lia].
  split.
  - unfold generate_episode_script. by rewrite Hst.
  - eexists. split; [exact Hst|]. cbn. split; [done|]. split; [done|].
    rewrite length_app, scene_requests_length. cbn. lia.
Qed.

Lemma X10_reply_with_error_text_is_dropped_witness :
  let svc := {| plan_completion := plan_completion sample_services;
                scene_completion := λ _, Some "NARRATOR: Error generating Scene 7, said the machine.";
                critique_completion := critique_completion sample_services;
                extraction_completion := extraction_completion sample_services;
                similarity_search := similarity_search sample_services;
                split_text := split_text sample_services;
                embeddings_ok := true; persist_ok := false |} in
  generate_episode_script svc sample_context
  = Ok "ERROR GENERATING SCENE 1: Generation stopped.".
Proof.
  intros svc.
  refine (proj1 (X10_reply_with_error_text_is_dropped svc sample_context []
                   "NARRATOR: Error generating Scene 7, said the machine." _ _ _ _)).
  - vm_compute. discriminate.
  - reflexivity.
  - reflexivity.
  - vm_compute. reflexivity.
Defined.

Lemma append_nonempty_r (a b : string) : b ≠ "" → a +:+ b ≠ "".
Proof. destruct a; [done|]. by intros _. Qed.

Lemma join_snoc_nonempty sep (l : list string) x : x ≠ "" → join sep (l ++ [x]) ≠ "".
Proof.
  intros Hx. induction l as [|a l IH]; [done|].
  cbn [app]. destruct (l ++ [x]) as [|b l'] eqn:E.
  - by destruct l.
  - change (join sep (a :: b :: l')) with (a +:+ sep +:+ join sep (b :: l')).
    by apply append_nonempty_r, append_nonempty_r.
Qed.

Lemma endswith_nonempty s t : t ≠ "" → endswith s t = true → s ≠ "".
Proof. intros Ht H ->. cbn in H. destruct t; [done|]. by cbn in H. Qed.

Lemma script_closed_init : script_closed loop_init.
Proof. split; cbn; [intros [=] | intros _ [=]]. Qed.

Lemma script_closed_body svc ctx st :
  script_closed st → loop_running st = true → script_closed (loop_body svc ctx st).
Proof.
  intros _ _. unfold loop_body, _generate_scene.
  destruct (scene_completion svc _) as [content|].
  - destruct (contains SCENE_ERROR (strip content)) eqn:Herr; split; cbn; try done.
    + intros _. eauto.
    + intros _ Hend. rewrite Hend. cbn. rewrite andb_false_r. eauto.
  - rewrite contains_app_l. split; cbn; [|done]. intros _. eauto.
Qed.

(** X11.  [generate_episode_script] never returns the empty string: the
    script ends with an error marker, with a scene that carries the end
    marker, or with the limit annotation.  The test [not script] of the
    pipeline therefore never holds. *)
Theorem X11_script_is_never_empty (svc : Services) (ctx : EpisodeContext) :
  ∃ s, generate_episode_script svc ctx = Ok s ∧ s ≠ "" ∧ String.eqb s "" = false.
Proof.
  destruct (scene_loop_returns svc ctx) as (st & Hst & Hinv & Hrun).
  assert (script_closed st) as [Hb Hc].
  { eapply (scene_loop_preserves script_closed); [|apply script_closed_init|exact Hst].
    intros st0. apply script_closed_body. }
  unfold generate_episode_script. rewrite Hst. cbn. eexists. split; [done|].
  assert (join "

" (full_episode_script st) ≠ "") as Hne.
  { destruct (broke st) eqn:Ebroke.
    - destruct (Hb eq_refl) as (scenes & n & ->). apply join_snoc_nonempty.
      by unfold error_marker.
    - destruct (episode_complete st) eqn:Ecomplete.
      + destruct (Hc eq_refl eq_refl) as (scenes & t & -> & Hend).
        apply join_snoc_nonempty. eapply endswith_nonempty; [|exact Hend].
        by unfold EPISODE_END.
      + destruct Hinv as [_ _ _ _ Hscr]. destruct (Hscr Ebroke) as (scenes & _ & Hfull).
        unfold loop_running in Hrun. rewrite Ebroke, Ecomplete in Hrun. cbn in Hrun.
        rewrite andb_true_r in Hrun. apply bool_decide_eq_false in Hrun.
        rewrite Ecomplete, bool_decide_eq_true_2 in Hfull by lia. cbn in Hfull.
        rewrite Hfull. apply join_snoc_nonempty. by unfold SCENE_LIMIT. }
  split; [done|]. by apply String.eqb_neq.
Qed.

Lemma requests_in_order_body svc ctx st :
  loop_invariant st → requests_in_order ctx st → loop_running st = true →
  requests_in_order ctx (loop_body svc ctx st).
Proof.
  intros [_ _ Hreq _ _] [Hnum Hctx] (Hb & _ & _)%loop_running_true.
  rewrite Hb in Hreq.
  assert (requests (loop_body svc ctx st)
          = requests st
            ++ [scene_request ctx (scene_number st) (previous_scenes_summary st)]) as Heq.
  { unfold loop_body. destruct (_generate_scene svc ctx _ _) as [[sc up] co].
    by destruct (contains SCENE_ERROR sc). }
  unfold requests_in_order. rewrite Heq. split.
  - rewrite fmap_app, length_app, Hnum. cbn.
    rewrite Nat2Z.inj_add, (seqZ_app 1) by lia. cbn. do 2 f_equal.
    change (Z.of_nat 1) with 1. rewrite (seqZ_cons _ 1) by lia. cbn. f_equal. lia.
  - apply Forall_app. split; [done|]. by repeat constructor.
Qed.

(** X12.  Whatever the service answers, the loop asks for the scenes
    1, 2, ..., k in order, each once, and every request carries the episode
    number, the episode summary and the three parts of the bundle that
    [generate_episode_script] was given, unchanged from scene to scene. *)
Theorem X12_scenes_requested_in_order (svc : Services) (ctx : EpisodeContext) :
  ∃ st, scene_loop scene_fuel svc ctx loop_init = Ok st
    ∧ sr_scene_number <$> requests st = seqZ 1 (Z.of_nat (length (requests st)))
    ∧ (1 ≤ length (requests st) ≤ 10)%nat
    ∧ Forall (λ r, sr_episode_number r = episode_number ctx
                   ∧ sr_episode_summary r = episode_summary ctx
                   ∧ sr_context_summary r = context_summary ctx
                   ∧ sr_character_info r = character_info ctx
                   ∧ sr_relevant_chunks r = relevant_chunks ctx) (requests st).
Proof.
  destruct (scene_loop_returns svc ctx) as (st & Hst & Hinv & Hrun).
  assert (loop_invariant st ∧ requests_in_order ctx st) as [_ [Hnum Hctx]].
  { eapply (scene_loop_preserves (λ st, loop_invariant st ∧ requests_in_order ctx st));
      [| |exact Hst].
    - intros st0 [Hi Hr] Hrun0. split; [by apply loop_body_invariant|].
      by apply requests_in_order_body.
    - split; [apply loop_invariant_init|]. split; [done | constructor]. }
  exists st. split; [done|]. split; [done|]. split; [|done].
  destruct Hinv as [Hlo Hup Hreq Hbr Hscr].
  unfold loop_running in Hrun.
  destruct (broke st) eqn:Eb.
  - specialize (Hbr eq_refl). unfold MAX_SCENES_PER_EPISODE in *. lia.
  - cbn in Hrun. destruct (episode_complete st) eqn:Ec.
    + assert (scene_number st ≠ 1); [|unfold MAX_SCENES_PER_EPISODE in *; lia].
      intros H1.
      assert (script_closed st ∧ loop_invariant st) as [[_ Hc] _].
      { eapply (scene_loop_preserves (λ st, script_closed st ∧ loop_invariant st));
          [| |exact Hst].
        - intros st0 [Hs Hi] Hrun0. split; [by apply script_closed_body|].
          by apply loop_body_invariant.
        - split; [apply script_closed_init | apply loop_invariant_init]. }
      destruct (Hc Eb Ec) as (scenes & t & Hfull & _).
      destruct (Hscr eq_refl) as (scenes' & Hlen & Hfull').
      cbn [negb] in Hfull'. rewrite andb_false_r in Hfull'. rewrite Hfull' in Hfull.
      rewrite H1 in Hlen. destruct scenes'; [|cbn in Hlen; lia].
      by destruct scenes.
    + rewrite andb_true_r in Hrun. apply bool_decide_eq_false in Hrun.
      unfold MAX_SCENES_PER_EPISODE in *. lia.
Qed.

(** ** More on the pipeline *)





Lemma has_undated_plot_tables m m' :
  plot_points m' = plot_points m → plot_counter m' = plot_counter m →
  has_undated_plot m → has_undated_plot m'.
Proof. unfold has_undated_plot. by intros -> ->. Qed.

(** X14.  A plot point without episode blocks the pipeline.  Once some
    plot point has [None] as its [episode_added], [generate_episode]
    raises [TypeError] for every episode of the plan, before any service
    is called, and stores nothing; early returns (no plan, episode not
    in the plan) still return.  Planning again or updating the memory does
    not repair the store. *)
Theorem X14_undated_plot_point_blocks_generation (svc : Services) (n : Z)
    (p : StoryPipeline) :
  has_undated_plot (memory p) →
  (∀ plan, story_plan p = Some plan →
     is_Some (list_find (λ ep, pe_episode ep = Some n) (master_outline plan)) →
     generate_episode svc n p = TypeError)
  ∧ (∀ svc' user_input, has_undated_plot (memory (plan_story svc' user_input p).2))
  ∧ (∀ svc' script_text n',
       has_undated_plot (update_memory_from_script svc' script_text n' (memory p))).
Proof.
  intros Hund. split; [|split].
  - intros plan Hplan [[i ep] Hfind]. unfold generate_episode.
    rewrite Hplan, Hfind. unfold assemble_context.
    by rewrite (get_context_summary_undated _ _ Hund).
  - intros svc' inp. unfold plan_story. destruct (String.eqb inp ""); [done|].
    destruct (plan_completion svc' inp) as [plan|]; [|done].
    assert (has_undated_plot (store_plan svc' (Some plan) (memory p)).2) as H.
    { rewrite store_plan_calls.
      destruct (add_document_chunks_tables svc' (overview_text plan) "story_overview" 0
                  (run_calls (memory p) (plan_calls plan))) as (_ & Hp & Hn).
      eapply has_undated_plot_tables; [exact Hp | exact Hn|].
      by apply has_undated_plot_run_calls. }
    cbn [memory]. by destruct (store_plan svc' (Some plan) (memory p)).
  - intros svc' s n'.
    destruct (update_memory_tables svc' s n' (memory p)) as (cs & _ & _ & Hp & Hn).
    eapply has_undated_plot_tables; [exact Hp | exact Hn|].
    by apply has_undated_plot_run_calls.
Qed.

Lemma X14_undated_plot_point_blocks_generation_witness :
  let p := {| memory := (add_plot_point "A storm" "introduced" None
                           (memory planned_pipeline)).2;
              story_plan := story_plan planned_pipeline;
              generated_episodes := generated_episodes planned_pipeline |} in
  has_undated_plot (memory p)
  ∧ generate_episode sample_services 2 p = TypeError.
Proof.
  intros p.
  assert (has_undated_plot (memory p)) as H.
  { exists 4, (new_plot_point 4 ("A storm", "introduced", None)).
    split; [vm_compute; discriminate|]. split; reflexivity. }
  split; [exact H|].
  destruct (X14_undated_plot_point_blocks_generation sample_services 2 p H) as [Hgen _].
  apply (Hgen sample_plan eq_refl). vm_compute. eauto.
Defined.

(** X15.  [plan_story] assigns the reply of the planner to [story_plan]
    before it tests it.  A planning call that fails (the planner returns
    nothing) therefore discards the plan the pipeline had: the memory and
    the generated episodes stay, and every later [generate_episode]
    returns ["No story plan exists."] without a script.  An empty input
    is refused before the planner is called and changes nothing. *)
Theorem X15_failed_planning_discards_the_plan (svc svc' : Services)
    (user_input : string) (n : Z) (p : StoryPipeline) :
  (plan_story svc "" p = (false, p))
  ∧ (user_input ≠ "" → plan_completion svc user_input = None →
     let r := plan_story svc user_input p in
     r.1 = false
     ∧ story_plan r.2 = None
     ∧ memory r.2 = memory p
     ∧ generated_episodes r.2 = generated_episodes p
     ∧ generate_episode svc' n r.2
       = Ok (None, CritiqueText "No story plan exists.", r.2)).
Proof.
  split; [done|]. intros Hne Hfail. unfold plan_story.
  apply String.eqb_neq in Hne. rewrite Hne, Hfail. by repeat split.
Qed.

Lemma X15_failed_planning_discards_the_plan_witness :
  let svc := {| plan_completion := λ _, None;
                scene_completion := scene_completion sample_services;
                critique_completion := critique_completion sample_services;
                extraction_completion := extraction_completion sample_services;
                similarity_search := similarity_search sample_services;
                split_text := split_text sample_services;
                embeddings_ok := true; persist_ok := false |} in
  story_plan planned_pipeline = Some sample_plan
  ∧ story_plan (plan_story svc "another story" planned_pipeline).2 = None.
Proof.
  intros svc. split; [reflexivity|].
  destruct (X15_failed_planning_discards_the_plan svc sample_services "another story" 1
              planned_pipeline) as [_ H].
  by destruct H as (_ & Hplan & _).
Defined.

(** ** Active plot points *)

Lemma keys_filter_subseteq {V} (P : string * V → Prop) `{!∀ x, Decision (P x)}
    (d : list (string * V)) k :
  k ∈ keys (filter P d) → k ∈ keys d.
Proof.
  unfold keys. rewrite !list_elem_of_fmap. intros ([k' v] & -> & Hin).
  apply list_elem_of_filter in Hin as [_ Hin]. by exists (k', v).
Qed.

Lemma dict_get_filter {V} (P : string * V → Prop) `{!∀ x, Decision (P x)}
    (d : list (string * V)) k :
  NoDup (keys d) →
  dict_get k (filter P d)
  = match dict_get k d with
    | Some v => if decide (P (k, v)) then Some v else None
    | None => None
    end.
Proof.
  unfold keys. induction d as [|[k0 v0] d IH]; intros Hnd; [done|].
  cbn in Hnd. apply NoDup_cons in Hnd as [Hk0 Hnd].
  rewrite filter_cons. cbn [dict_get].
  destruct (String.eqb k k0) eqn:E.
  - apply String.eqb_eq in E. subst k0.
    destruct (decide (P (k, v0))) as [HP|HP].
    + cbn. by rewrite String.eqb_refl.
    + apply dict_get_None_keys. intros Hin. by apply keys_filter_subseteq in Hin.
  - destruct (decide (P (k0, v0))); cbn; rewrite ?E; by apply IH.
Qed.

Lemma get_active_plot_points_get m k :
  unique_keys m →
  dict_get k (get_active_plot_points m)
  = match dict_get k (plot_points m) with
    | Some p => if decide (status p ∉ terminal_statuses) then Some p else None
    | None => None
    end.
Proof.
  intros [_ Hp]. unfold get_active_plot_points.
  by rewrite (dict_get_filter (λ kv, status kv.2 ∉ terminal_statuses)).
Qed.

(** X16.  In a store with no repeated key, the active plot points are the
    plot points whose current status is none of [resolved], [completed],
    [abandoned], under their keys.  A plot point leaves them when
    [update_plot_status] gives it one of these statuses, and is among them
    after an update to any other status. *)
Theorem X16_active_plot_points (m : MemoryManager) :
  unique_keys m →
  (∀ k p, dict_get k (get_active_plot_points m) = Some p
          ↔ dict_get k (plot_points m) = Some p ∧ status p ∉ terminal_statuses)
  ∧ (∀ i st e, st ∈ terminal_statuses →
       dict_get (str i) (get_active_plot_points (update_plot_status i st e m).2) = None)
  ∧ (∀ i st e p, st ∉ terminal_statuses →
       dict_get (str i) (plot_points m) = Some p →
       dict_get (str i) (get_active_plot_points (update_plot_status i st e m).2)
       = Some (with_status p st e)).
Proof.
  intros Hu. split; [|split].
  - intros k p. rewrite (get_active_plot_points_get m k Hu).
    destruct (dict_get k (plot_points m)) as [q|].
    + destruct (decide (status q ∉ terminal_statuses)) as [Hq|Hq].
      * split; [by intros [= <-] | by intros [[= <-] _]].
      * split; [done | intros [[= <-] ?]; done].
    + split; [done | by intros [? _]].
  - intros i st e Hst.
    pose proof (unique_keys_run_call m (CallUpdatePlotStatus i st e) Hu) as Hu'.
    cbn [run_call] in Hu'. rewrite (get_active_plot_points_get _ _ Hu').
    unfold update_plot_status.
    destruct (dict_get (str i) (plot_points m)) as [q|] eqn:Eq; cbn [snd].
    + cbn [plot_points _save_persistent_data]. rewrite dict_get_set_eq. cbn [status].
      rewrite decide_False; [done|]. intros H. by apply H.
    + by rewrite Eq.
  - intros i st e p Hst Hp.
    pose proof (unique_keys_run_call m (CallUpdatePlotStatus i st e) Hu) as Hu'.
    cbn [run_call] in Hu'. rewrite (get_active_plot_points_get _ _ Hu').
    unfold update_plot_status. rewrite Hp. cbn [snd plot_points _save_persistent_data].
    rewrite dict_get_set_eq. cbn [status]. by rewrite decide_True.
Qed.

Lemma X16_active_plot_points_witness :
  unique_keys sample_store
  ∧ dict_get "1" (get_active_plot_points sample_store) = Some sample_plot
  ∧ dict_get "1" (get_active_plot_points
                    (update_plot_status 1 "resolved" (Some 4) sample_store).2) = None.
Proof.
  assert (unique_keys sample_store) as H.
  { split; apply (bool_decide_unpack _); vm_compute; reflexivity. }
  destruct (X16_active_plot_points sample_store H) as (Hact & Hterm & _).
  split; [exact H|]. split.
  - apply Hact. split; [reflexivity|]. apply (bool_decide_unpack _). vm_compute. reflexivity.
  - apply (Hterm 1 "resolved" (Some 4)). apply (bool_decide_unpack _). vm_compute. reflexivity.
Defined.

(** ** The newest state of a character in [get_character_summaries] *)

Lemma prefix_app_mono (t a b : string) :
  String.prefix t a = true → String.prefix t (a +:+ b) = true.
Proof.
  revert a. induction t as [|c t IH]; intros a; simpl.
  - intros _. by destruct (a +:+ b).
  - destruct a as [|c' a]; [done|]. simpl.
    destruct (Ascii.ascii_dec c c'); [apply IH | done].
Qed.

Lemma prefix_refl (t : string) : String.prefix t t = true.
Proof. induction t as [|c t IH]; simpl; [done|]. by destruct (Ascii.ascii_dec c c). Qed.

Lemma contains_unfold (t s : string) :
  contains t s
  = String.prefix t s
    || match s with String _ s' => contains t s' | EmptyString => false end.
Proof. by destruct s. Qed.

Lemma contains_refl (t : string) : contains t t = true.
Proof. by rewrite contains_unfold, prefix_refl. Qed.

Lemma contains_app_r (t a b : string) :
  contains t b = true → contains t (a +:+ b) = true.
Proof.
  intros H. induction a as [|c a IH]; [done|].
  change (String c a +:+ b) with (String c (a +:+ b)).
  rewrite contains_unfold, IH. apply orb_true_r.
Qed.

Lemma contains_app_mono (t a b : string) :
  contains t a = true → contains t (a +:+ b) = true.
Proof.
  induction a as [|c a IH]; intros H.
  - rewrite contains_unfold, orb_false_r in H.
    rewrite contains_unfold. by rewrite (prefix_app_mono _ _ _ H).
  - rewrite contains_unfold in H. apply orb_true_iff in H as [H|H].
    + rewrite contains_unfold. by rewrite (prefix_app_mono _ _ _ H).
    + change (String c a +:+ b) with (String c (a +:+ b)).
      rewrite contains_unfold, (IH H). apply orb_true_r.
Qed.

Lemma contains_join_elem sep (l : list string) t x :
  x ∈ l → contains t x = true → contains t (join sep l) = true.
Proof.
  intros Hin Hx. induction l as [|a l IH]; [by apply elem_of_nil in Hin|].
  destruct l as [|b l].
  - by apply list_elem_of_singleton in Hin as ->.
  - change (join sep (a :: b :: l)) with (a +:+ sep +:+ join sep (b :: l)).
    apply elem_of_cons in Hin as [->|Hin].
    + by apply contains_app_mono.
    + by apply contains_app_r, contains_app_r, IH.
Qed.

Lemma last_n_snoc {A} k (l : list A) x : (0 < k)%nat → x ∈ last_n k (l ++ [x]).
Proof.
  intros Hk. unfold last_n. apply list_elem_of_lookup.
  exists (length l - (length (l ++ [x]) - k))%nat.
  rewrite lookup_drop, length_app. cbn.
  replace (length l + 1 - k + (length l - (length l + 1 - k)))%nat
    with (length l) by lia.
  by rewrite list_lookup_middle.
Qed.

(** X17.  [get_character_summaries] has no episode argument.  After
    [update_character_state(name, change, episode)], whatever the episode
    and whatever the store held, the text it returns contains
    ["Episode <episode>: <change>"]: the newest state of a character is
    always among the last three that are rendered. *)
Theorem X17_character_summaries_show_newest_state (name change : string)
    (ep : option Z) (m : MemoryManager) :
  contains ("Episode " +:+ fmt ep +:+ ": " +:+ change)
           (get_character_summaries (update_character_state name change ep m))
  = true.
Proof.
  unfold get_character_summaries. rewrite update_character_state_characters.
  set (c' := with_state (dict_get name (characters m)) name change ep).
  set (line := λ kv : string * Character, _).
  assert ((name, c') ∈ dict_set name c' (characters m)) as Hin
    by apply dict_get_Some_elem, dict_get_set_eq.
  assert (contains ("Episode " +:+ fmt ep +:+ ": " +:+ change) (line (name, c')) = true)
    as Hline.
  { unfold line. cbn [fst snd].
    assert (contains ("Episode " +:+ fmt ep +:+ ": " +:+ change)
              (join "; " (render_state_entry <$> last_n 3 (state_history c'))) = true)
      as Hc.
    { apply (contains_join_elem _ _ _ ("Episode " +:+ fmt ep +:+ ": " +:+ change));
        [|apply contains_refl].
      apply list_elem_of_fmap.
      exists {| se_episode := ep; se_change := change |}. split; [done|].
      unfold c', with_state. destruct (dict_get name (characters m)); cbn.
      - apply last_n_snoc. lia.
      - apply list_elem_of_here. }
    destruct (String.eqb (join "; " _) "") eqn:E.
    - apply String.eqb_eq in E. rewrite E in Hc. done.
    - by apply contains_app_r, contains_app_r. }
  assert (line (name, c') ∈ line <$> dict_set name c' (characters m)) as Hl.
  { apply list_elem_of_fmap. by exists (name, c'). }
  destruct (line <$> dict_set name c' (characters m)) as [|l0 ls] eqn:El.
  - by apply elem_of_nil in Hl.
  - by eapply contains_join_elem.
Qed.

(** ** What [store_plan] writes *)

Lemma plot_counter_run_calls cs : ∀ m,
  plot_counter (run_calls m cs)
  = plot_counter m + Z.of_nat (length (filter (λ c, is_add_call c) cs)).
Proof.
  induction cs as [|c cs IH]; intros m; [cbn; lia|].
  cbn [run_calls foldl]. change (foldl run_call (run_call m c) cs)
    with (run_calls (run_call m c) cs).
  rewrite IH, filter_cons. destruct c as [nm s e|s st e|i st e]; cbn;
    case_decide; try done; cbn [length]; [lia|].
  unfold update_plot_status. destruct (dict_get (str i) (plot_points m)); cbn; lia.
Qed.

Lemma length_plot_points_run_calls cs : ∀ m,
  ids_issued m →
  length (plot_points (run_calls m cs))
  = (length (plot_points m) + length (filter (λ c, is_add_call c) cs))%nat.
Proof.
  induction cs as [|c cs IH]; intros m Hm; [cbn; lia|].
  cbn [run_calls foldl]. change (foldl run_call (run_call m c) cs)
    with (run_calls (run_call m c) cs).
  rewrite IH by (by apply ids_issued_run_call). rewrite filter_cons.
  destruct c as [nm s e|s st e|i st e]; cbn; case_decide;
    try (exfalso; tauto); cbn [length].
  - lia.
  - rewrite dict_set_new by (by apply ids_issued_next_free).
    rewrite length_app. cbn. lia.
  - unfold update_plot_status.
    destruct (dict_get (str i) (plot_points m)) as [q|] eqn:Eq; cbn; [|lia].
    f_equal.
    rewrite <- (length_fmap fst (dict_set _ _ _)), <- (length_fmap fst (plot_points m)).
    f_equal. apply (keys_dict_set_old (str i)). by rewrite Eq.
Qed.

Lemma filter_add_fmap_none {A} (f : A → StoreCall) (l : list A) :
  (∀ a, is_add_call (f a) = false) →
  filter (λ c, is_add_call c) (f <$> l) = [].
Proof.
  intros Hf. induction l as [|a l IH]; [done|].
  rewrite fmap_cons, filter_cons. case_decide as H; [|exact IH].
  by rewrite Hf in H.
Qed.

Lemma filter_add_fmap_all {A} (f : A → StoreCall) (l : list A) :
  (∀ a, is_add_call (f a) = true) →
  length (filter (λ c, is_add_call c) (f <$> l)) = length l.
Proof.
  intros Hf. induction l as [|a l IH]; [done|].
  rewrite fmap_cons, filter_cons. case_decide as H.
  - cbn [length]. by rewrite IH.
  - by rewrite Hf in H.
Qed.

Lemma plan_calls_adds plan :
  length (filter (λ c, is_add_call c) (plan_calls plan)) = planned_plot_points plan.
Proof.
  unfold plan_calls, planned_plot_points. rewrite filter_app, length_app.
  rewrite filter_add_fmap_none by done. cbn [length Nat.add].
  induction (master_outline plan) as [|ep l IH]; [done|].
  rewrite bind_cons, filter_app, length_app, IH. cbn [sum_list_with]. f_equal.
  rewrite filter_cons. case_decide as H; [|by destruct H].
  cbn [length]. f_equal. by apply filter_add_fmap_all.
Qed.

Lemma plan_calls_planning plan : Forall planning_call (plan_calls plan).
Proof.
  unfold plan_calls. rewrite Forall_app. split.
  - apply Forall_fmap, Forall_true. intros ?. done.
  - apply Forall_forall. intros c Hc. apply list_elem_of_bind in Hc as (ep & Hc & _).
    apply elem_of_cons in Hc as [->|Hc]; [done|].
    by apply list_elem_of_fmap in Hc as (pt & -> & _).
Qed.

Lemma planned_run_calls (c0 : Z) cs : ∀ m,
  Forall planning_call cs → ids_issued m → c0 ≤ plot_counter m →
  (∀ j p, c0 < j → dict_get (str j) (plot_points m) = Some p → planned_at_0 p) →
  ∀ j p, c0 < j → dict_get (str j) (plot_points (run_calls m cs)) = Some p →
    planned_at_0 p.
Proof.
  induction cs as [|c cs IH]; intros m Hcs Hids Hc0 Hm; [exact Hm|].
  inversion Hcs as [|? ? Hc Hcs']; subst.
  cbn [run_calls foldl]. change (foldl run_call (run_call m c) cs)
    with (run_calls (run_call m c) cs).
  apply IH; [done|by apply ids_issued_run_call|..].
  - destruct c as [nm s e|s st e|i st e]; cbn; [lia|lia|done].
  - destruct c as [nm s e|s st e|i st e]; cbn in Hc; [exact Hm| |done].
    destruct Hc as [-> ->]. intros j p Hj. cbn.
    destruct (decide (j = plot_counter m + 1)) as [->|Hne].
    + rewrite dict_get_set_eq. by intros [= <-].
    + rewrite dict_get_set_ne; [by apply Hm|]. intros H. by apply str_inj in H.
Qed.

(** X18.  [store_plan] on a plan adds one plot point for the objective of
    each episode and one for each key point: the counter grows by that
    number, and in a store whose plot keys are ids already issued the
    table grows by as many entries.  Each of them, found under an id above
    the old counter, has the status [planned], [episode_added] 0 and the
    single history entry [(0, planned)].  Planning twice adds them twice.
    Without a plan [store_plan] returns [False] and leaves the store. *)
Theorem X18_store_plan_adds_planned_plot_points (svc : Services) (plan : StoryPlan)
    (m : MemoryManager) :
  store_plan svc None m = (false, m)
  ∧ plot_counter (store_plan svc (Some plan) m).2
    = plot_counter m + Z.of_nat (planned_plot_points plan)
  ∧ (ids_issued m →
     length (plot_points (store_plan svc (Some plan) m).2)
     = (length (plot_points m) + planned_plot_points plan)%nat
     ∧ (∀ j p, plot_counter m < j →
          dict_get (str j) (plot_points (store_plan svc (Some plan) m).2) = Some p →
          planned_at_0 p)
     ∧ plot_counter (store_plan svc (Some plan) (store_plan svc (Some plan) m).2).2
       = plot_counter m + 2 * Z.of_nat (planned_plot_points plan)).
Proof.
  split; [done|].
  rewrite store_plan_calls.
  destruct (add_document_chunks_tables svc (overview_text plan) "story_overview" 0
              (run_calls m (plan_calls plan))) as (_ & Hp & Hn).
  rewrite Hn, Hp, plot_counter_run_calls, plan_calls_adds.
  split; [done|]. intros Hids. split; [|split].
  - by rewrite length_plot_points_run_calls, plan_calls_adds.
  - apply (planned_run_calls (plot_counter m)); [apply plan_calls_planning|done|lia|].
    intros j p Hj Hget. apply dict_get_Some_elem, Hids in Hget as (j' & Hj' & Hle).
    apply str_inj in Hj'. lia.
  - rewrite store_plan_calls.
    destruct (add_document_chunks_tables svc (overview_text plan) "story_overview" 0
                (run_calls (add_document_chunks svc (overview_text plan)
                              "story_overview" 0 (run_calls m (plan_calls plan))).2
                           (plan_calls plan))) as (_ & _ & Hn').
    rewrite Hn', plot_counter_run_calls, plan_calls_adds, Hn, plot_counter_run_calls,
      plan_calls_adds. lia.
Qed.

Lemma X18_store_plan_adds_planned_plot_points_witness :
  ids_issued (empty_tables (Some []) empty_disk)
  ∧ planned_plot_points sample_plan = 3%nat
  ∧ length (plot_points (store_plan sample_services (Some sample_plan)
                           (empty_tables (Some []) empty_disk)).2) = 3%nat.
Proof.
  pose proof (ids_issued_empty (Some []) empty_disk) as H.
  split; [exact H|]. split; [reflexivity|].
  destruct (X18_store_plan_adds_planned_plot_points sample_services sample_plan
              (empty_tables (Some []) empty_disk)) as (_ & _ & Hlen).
  destruct (Hlen H) as [Hl _]. exact Hl.
Defined.

(** ** What is added to the vector store *)



(** ** The summary of an episode before everything recorded *)

Lemma collect_lines_all_None (passes : list (result (option string))) :
  Forall (λ pass, pass = Ok None) passes → collect_lines passes = Ok [].
Proof.
  induction 1 as [|pass passes -> _ IH]; [done|]. cbn. by rewrite IH.
Qed.

(** X20.  When no character first appeared before episode [n] and no plot
    point was added before it (an empty store, or the episode 0 of a
    planned one), [get_context_summary(n)] is the two fallback sentences;
    the histories are not looked at, so they may hold anything. *)
Theorem X20_summary_before_everything (m : MemoryManager) (n : Z) :
  (∀ k c, (k, c) ∈ characters m → ∃ z, first_appearance c = Some z ∧ n ≤ z) →
  (∀ k p, (k, p) ∈ plot_points m → ∃ z, episode_added p = Some z ∧ n ≤ z) →
  get_context_summary m n = Ok "No prior character information.

No prior plot points.".
Proof.
  intros Hchars Hplots. rewrite get_context_summary_passes.
  rewrite (collect_lines_all_None (character_pass n <$> characters m)).
  - rewrite (collect_lines_all_None (plot_pass n <$> plot_points m)); [done|].
    apply Forall_fmap, Forall_forall. intros [k p] Hin.
    destruct (Hplots k p Hin) as (z & Hz & Hle). cbn.
    unfold plot_pass, latest_status. cbn. rewrite Hz. cbn.
    by rewrite bool_decide_eq_false_2 by lia.
  - apply Forall_fmap, Forall_forall. intros [k c] Hin.
    destruct (Hchars k c Hin) as (z & Hz & Hle). cbn.
    unfold character_pass, last_states. cbn. rewrite Hz. cbn.
    by rewrite bool_decide_eq_false_2 by lia.
Qed.

Lemma X20_summary_before_everything_witness :
  get_context_summary (memory planned_pipeline) 0
  = Ok "No prior character information.

No prior plot points.".
Proof.
  apply X20_summary_before_everything.
  - intros k c Hin. vm_compute in Hin. apply list_elem_of_singleton in Hin.
    injection Hin as -> ->. exists 0. split; [reflexivity | lia].
  - intros k p Hin. vm_compute in Hin.
    repeat (apply elem_of_cons in Hin as [Hin|Hin];
            [injection Hin as -> ->; exists 0; split; [reflexivity | lia]|]).
    by apply elem_of_nil in Hin.
Defined.
